(** * AITraffic front end: upload store, request lifecycle and result projection

    A shallow embedding of the client logic of the React front end:
    - [ImageUpload]  : components/ImageUpload/ImageUpload.jsx
                       ([onDrop], [removeImage], [handleIndividualUpload]);
    - [Api]          : services/api.js (response interceptor, [analyzeTraffic]);
    - [App]          : App.jsx ([handleImagesUpload], [handleAnalyzeTraffic],
                       the analyze button, the header statistics);
    - [AnalysisResults] : components/AnalysisResults/AnalysisResults.jsx
                       ([totalVehicles], [greenSignals]).

    React state is modelled by explicit state passing.  The two suspension
    points of the program (a [FileReader] finishing a decode, the HTTP request
    settling) are modelled as separate events, so that every interleaving the
    single-threaded event loop admits is a sequence of events. *)

From Stdlib Require Import Ascii String List ZArith NArith Lia Bool Permutation DecimalString.
Import ListNotations.
Local Open Scope string_scope.
Local Open Scope list_scope.

(** ** JavaScript objects used as maps

    A plain object with string keys enumerates its own keys in insertion
    order; [Object.keys(o).find(...)] in [onDrop] depends on that order, so
    an object is an association list without duplicate keys. *)
Module JsObject.

Definition obj (V : Type) : Type := list (string * V).

Section Ops.
Context {V : Type}.

(** [o[k]]: [None] stands for [undefined] (no such own property). *)
Fixpoint get (k : string) (o : obj V) : option V :=
  match o with
  | [] => None
  | (k', v) :: o' => if k' =? k then Some v else get k o'
  end.

(** [o[k] = v]: an existing key keeps its position, a new key goes last. *)
Fixpoint set (k : string) (v : V) (o : obj V) : obj V :=
  match o with
  | [] => [(k, v)]
  | (k', v') :: o' => if k' =? k then (k, v) :: o' else (k', v') :: set k v o'
  end.

(** [Object.keys], [Object.values], [Object.entries]. *)
Definition keys (o : obj V) : list string := map fst o.
Definition values (o : obj V) : list V := map snd o.
Definition entries (o : obj V) : list (string * V) := o.

End Ops.

(** Member access [o[k]] also finds what every object inherits from
    [Object.prototype]; [get] is the lookup among own properties and agrees
    with [o[k]] for every other name. *)
Definition inherited_names : list string :=
  ["constructor"; "__proto__"; "hasOwnProperty"; "isPrototypeOf";
   "propertyIsEnumerable"; "toLocaleString"; "toString"; "valueOf";
   "__defineGetter__"; "__defineSetter__"; "__lookupGetter__";
   "__lookupSetter__"].

Definition inherited (k : string) : bool :=
  existsb (String.eqb k) inherited_names.

End JsObject.

Import JsObject.

(** ** JavaScript strings

    The string methods the components call, on ASCII text (the constants of
    the program and the values the service is specified to send are ASCII;
    a character outside ASCII is left as it is). *)
Module JsString.

Definition upper_char (c : ascii) : ascii :=
  let n := nat_of_ascii c in
  if Nat.leb 97 n && Nat.leb n 122 then ascii_of_nat (n - 32) else c.

(** [s.toUpperCase()] *)
Fixpoint toUpperCase (s : string) : string :=
  match s with
  | EmptyString => EmptyString
  | String c s' => String (upper_char c) (toUpperCase s')
  end.

(** [s.replace(pat, rep)] for a one-character string pattern: only the
    first occurrence is replaced. *)
Fixpoint replace_char (pat rep : ascii) (s : string) : string :=
  match s with
  | EmptyString => EmptyString
  | String c s' =>
      if Ascii.eqb c pat then String rep s' else String c (replace_char pat rep s')
  end.

(** [s.charAt(0)]: the empty string when [s] is empty. *)
Definition charAt0 (s : string) : string :=
  match s with
  | EmptyString => EmptyString
  | String c _ => String c EmptyString
  end.

(** Whether [c] occurs in [s]. *)
Fixpoint occurs (c : ascii) (s : string) : bool :=
  match s with
  | EmptyString => false
  | String c' s' => Ascii.eqb c' c || occurs c s'
  end.

Definition is_ascii (s : string) : bool :=
  forallb (fun c => Nat.ltb (nat_of_ascii c) 128) (list_ascii_of_string s).

End JsString.

(** ** JavaScript numbers

    The vehicle counts are integers held in IEEE 754 doubles.  A sum of two
    of them is the exact integer sum rounded to the nearest double, ties to
    the even significand; every integer up to [2^53] in magnitude is a
    double, above that the doubles are the multiples of a power of two, and
    from [2^1024] on the result is an infinity. *)
Module JsNumber.

Inductive number : Type :=
| Finite (z : Z)
| PosInfinity
| NegInfinity.

Definition round_to_double (x : Z) : number :=
  let m := Z.abs x in
  if (m <? 9007199254740992)%Z then Finite x
  else
    let e := Z.log2 m in
    let u := (2 ^ (e - 52))%Z in
    let q := (m / u)%Z in
    let r := (m mod u)%Z in
    let h := (u / 2)%Z in
    let q' :=
      if (r <? h)%Z then q
      else if (h <? r)%Z then (q + 1)%Z
      else if Z.even q then q else (q + 1)%Z in
    let v := (q' * u)%Z in
    if (2 ^ 1024 <=? v)%Z
    then (if (0 <? x)%Z then PosInfinity else NegInfinity)
    else Finite (Z.sgn x * v).

(** [sum + count] for an accumulated sum and a count. *)
Definition add (sum : number) (count : Z) : number :=
  match sum with
  | Finite s => round_to_double (s + count)
  | PosInfinity => PosInfinity
  | NegInfinity => NegInfinity
  end.

End JsNumber.

(** ** utils/constants.js

    [DEFAULT_ANALYSIS] is not used by any component and is left out. *)
Module Constants.

Definition SIGNAL_STATES : obj string :=
  [("RED", "red"); ("YELLOW", "yellow"); ("GREEN", "green")].

Definition DENSITY_LEVELS : obj string :=
  [("VERY_LOW", "very_low"); ("LOW", "low"); ("MEDIUM", "medium");
   ("HIGH", "high"); ("VERY_HIGH", "very_high")].

Definition DIRECTIONS : obj string :=
  [("NORTH", "north"); ("SOUTH", "south"); ("EAST", "east"); ("WEST", "west")].

Definition DENSITY_COLORS : obj string :=
  [("very_low", "#d4edda"); ("low", "#cce7ff"); ("medium", "#fff3cd");
   ("high", "#f8d7da"); ("very_high", "#dc3545")].

Definition DENSITY_TEXT_COLORS : obj string :=
  [("very_low", "#155724"); ("low", "#004085"); ("medium", "#856404");
   ("high", "#721c24"); ("very_high", "#ffffff")].

Definition SIGNAL_COLORS : obj string :=
  [("red", "#e74c3c"); ("yellow", "#f39c12"); ("green", "#27ae60")].

End Constants.

(** ** Browser values *)

(** A [File] as the code reads it: [file.name] and [file.size]. *)
Module File.
Record t : Type := mk { name : string; size : N }.
End File.

(** The object literal stored in a slot by [onDrop] and
    [handleIndividualUpload]. *)
Record ImageData : Type := mkImageData {
  file : File.t;
  preview : string;
  name : string;
  size : N
}.

(** A slot is [null] ([None]) or an [ImageData]. *)
Definition ImageSlot : Type := option ImageData.
Definition UploadState : Type := obj ImageSlot.

(** [img !== null] *)
Definition not_null (s : ImageSlot) : bool :=
  match s with Some _ => true | None => false end.

(** [Object.values(images).every(img => img !== null)] *)
Definition allImagesUploaded (images : UploadState) : bool :=
  forallb not_null (values images).

(** [!o[dir]]: both [undefined] and [null] are falsy, an object is truthy. *)
Definition falsy_slot (v : option ImageSlot) : bool :=
  match v with Some (Some _) => false | _ => true end.

(** [a || b] on values that are a string or [undefined]: the empty string
    and [undefined] are falsy. *)
Definition js_or (a b : option string) : option string :=
  match a with
  | Some s => if s =? "" then b else Some s
  | None => b
  end.

(** Conversion of a computed member name to a property key. *)
Definition to_key (k : option string) : string :=
  match k with Some s => s | None => "undefined" end.

(** The object literal [{ file, preview: e.target.result, name: file.name,
    size: file.size }]. *)
Definition image_of (f : File.t) (result : string) : ImageData :=
  {| file := f; preview := result; name := File.name f; size := File.size f |}.

(** ** ImageUpload.jsx *)
Module ImageUpload.

(** [const directions = ['north', 'south', 'east', 'west']] *)
Definition directions : list string := ["north"; "south"; "east"; "west"].

(** [useState({ north: null, south: null, east: null, west: null })] *)
Definition initial_images : UploadState :=
  [("north", None); ("south", None); ("east", None); ("west", None)].

(** One call of [onDrop]: the object [newImages] shared by the [onload]
    callbacks of that call, the files, and the indices whose reader has
    already fired. *)
Record Batch : Type := mkBatch {
  newImages : UploadState;
  acceptedFiles : list File.t;
  loaded : list nat
}.

(** One pending reader of [handleIndividualUpload]: the [images] of the
    render that created the handler, the direction and the file. *)
Record Reader : Type := mkReader {
  captured : UploadState;
  direction : string;
  picked : File.t
}.

(** The component: its [images] state and the decodes still in flight. *)
Record Store : Type := mkStore {
  images : UploadState;
  batches : list Batch;
  readers : list Reader
}.

Definition initial : Store :=
  {| images := initial_images; batches := []; readers := [] |}.

(** The synchronous part of [onDrop]: copy [images], and null the four
    directions when exactly four files were accepted. *)
Definition onDrop_newImages (imgs : UploadState) (files : list File.t) : UploadState :=
  if Nat.eqb (length files) 4
  then fold_left (fun o dir => set dir None o) directions imgs
  else imgs.

Definition onDrop (files : list File.t) (st : Store) : Store :=
  {| images := images st;
     batches := batches st ++
       [{| newImages := onDrop_newImages (images st) files;
           acceptedFiles := files;
           loaded := [] |}];
     readers := readers st |}.

(** [Object.keys(newImages).find(dir => !newImages[dir])] *)
Definition first_empty (o : UploadState) : option string :=
  find (fun dir => falsy_slot (get dir o)) (keys o).

(** The direction computed inside [reader.onload] of [onDrop]. *)
Definition onload_direction (files : list File.t) (index : nat) (o : UploadState) : string :=
  to_key (if Nat.eqb (length files) 4
          then nth_error directions index
          else js_or (first_empty o) (nth_error directions index)).

(** The body of [reader.onload] in [onDrop]: the updated shared object and
    the calls of [onImagesUpload] it makes.  The object itself is passed to
    [onImagesUpload]; it is complete at that point and later readers of the
    drop only overwrite filled slots and notify again, so the receiver never
    sees it differ from the value passed last. *)
Definition onDrop_onload (files : list File.t) (index : nat) (f : File.t)
    (result : string) (o : UploadState) : UploadState * list UploadState :=
  let o' := set (onload_direction files index o) (Some (image_of f result)) o in
  (o', if allImagesUploaded o' then [o'] else []).

(** [removeImage]: the new state and the call of [onImagesUpload]. *)
Definition removeImage_images (dir : string) (imgs : UploadState) : UploadState :=
  set dir None imgs.

Definition removeImage (dir : string) (st : Store) : Store * list UploadState :=
  let n := removeImage_images dir (images st) in
  ({| images := n; batches := batches st; readers := readers st |}, [n]).

(** [handleIndividualUpload]: [event.target.files[0]] is [undefined] for an
    empty selection, and then nothing is done; otherwise a reader is
    started. *)
Definition handleIndividualUpload (dir : string) (files : list File.t) (st : Store)
    : Store * list UploadState :=
  match files with
  | [] => (st, [])
  | f :: _ =>
      ({| images := images st;
          batches := batches st;
          readers := readers st ++
            [{| captured := images st; direction := dir; picked := f |}] |}, [])
  end.

(** [reader.onload] of [handleIndividualUpload]. *)
Definition individual_onload (r : Reader) (result : string) : UploadState :=
  set (direction r) (Some (image_of (picked r) result)) (captured r).

(** *** Events of the component *)
Inductive Event : Type :=
| Drop (files : list File.t)
| BatchLoad (b index : nat) (result : string)
| Remove (dir : string)
| Pick (dir : string) (files : list File.t)
| ReaderLoad (r : nat) (result : string).

Fixpoint replace_nth {A} (n : nat) (x : A) (l : list A) : list A :=
  match l, n with
  | [], _ => []
  | _ :: l', O => x :: l'
  | y :: l', S n' => y :: replace_nth n' x l'
  end.

Fixpoint remove_nth {A} (n : nat) (l : list A) : list A :=
  match l, n with
  | [], _ => []
  | _ :: l', O => l'
  | y :: l', S n' => y :: remove_nth n' l'
  end.

(** One event: the new component state and the notifications
    ([onImagesUpload] calls) made, or [None] when the event cannot occur (a
    reader fires once, and only for a file of its batch). *)
Definition step (st : Store) (ev : Event) : option (Store * list UploadState) :=
  match ev with
  | Drop files => Some (onDrop files st, [])
  | BatchLoad b index result =>
      match nth_error (batches st) b with
      | None => None
      | Some bt =>
          match nth_error (acceptedFiles bt) index with
          | None => None
          | Some f =>
              if existsb (Nat.eqb index) (loaded bt) then None
              else
                let '(o', notes) :=
                  onDrop_onload (acceptedFiles bt) index f result (newImages bt) in
                Some ({| images := o';
                         batches := replace_nth b
                           {| newImages := o';
                              acceptedFiles := acceptedFiles bt;
                              loaded := index :: loaded bt |} (batches st);
                         readers := readers st |}, notes)
          end
      end
  | Remove dir => Some (removeImage dir st)
  | Pick dir files => Some (handleIndividualUpload dir files st)
  | ReaderLoad r result =>
      match nth_error (readers st) r with
      | None => None
      | Some rd =>
          let n := individual_onload rd result in
          Some ({| images := n;
                   batches := batches st;
                   readers := remove_nth r (readers st) |}, [n])
      end
  end.

(** A sequence of events, collecting the notifications in order. *)
Fixpoint run (st : Store) (evs : list Event) : option (Store * list UploadState) :=
  match evs with
  | [] => Some (st, [])
  | ev :: evs' =>
      match step st ev with
      | None => None
      | Some (st1, n1) =>
          match run st1 evs' with
          | None => None
          | Some (st2, n2) => Some (st2, n1 ++ n2)
          end
      end
  end.

(** [assignBulk]: a drop, followed by the readers of that drop firing in
    the order [order] with the data URLs [results] (by file index), no other
    event in between. *)
Definition assignBulk_events (b : nat) (results : list string) (order : list nat)
    : list Event :=
  map (fun i => BatchLoad b i (nth i results "")) order.

Definition assignBulk (files : list File.t) (results : list string)
    (order : list nat) (st : Store) : option (Store * list UploadState) :=
  run st (Drop files :: assignBulk_events (length (batches st)) results order).

(** The decodes of one [onDrop] call seen from its batch alone: the
    readers [order] fire one after the other on the shared object. *)
Fixpoint loads (results : list string) (order : list nat) (bt : Batch)
    : option (Batch * list UploadState) :=
  match order with
  | [] => Some (bt, [])
  | index :: order' =>
      match nth_error (acceptedFiles bt) index with
      | None => None
      | Some f =>
          if existsb (Nat.eqb index) (loaded bt) then None
          else
            let '(o', n1) :=
              onDrop_onload (acceptedFiles bt) index f (nth index results "")
                            (newImages bt) in
            match loads results order'
                    {| newImages := o'; acceptedFiles := acceptedFiles bt;
                       loaded := index :: loaded bt |} with
            | None => None
            | Some (bt', n2) => Some (bt', n1 ++ n2)
            end
      end
  end.

(** [Object.values(images).filter(img => img !== null).length], the count
    shown as "n / 4 images uploaded". *)
Definition uploaded_count (imgs : UploadState) : nat :=
  length (filter not_null (values imgs)).

(** Keys are never deleted: the four directions stay among the keys of
    every object the component holds. *)
Definition has_directions (o : UploadState) : Prop := incl directions (keys o).

Definition store_has_directions (st : Store) : Prop :=
  has_directions (images st) /\
  Forall (fun bt => has_directions (newImages bt)) (batches st) /\
  Forall (fun r => has_directions (captured r)) (readers st).

(** *** The shape the component is meant to keep

    Every object the component holds (its state, the shared object of each
    drop, the state captured by each pending reader) has the four direction
    keys in their order; no drop carried more than four files; the slot
    handlers are the ones rendered, one per direction. *)
Definition four_keys (o : UploadState) : Prop := keys o = directions.

Definition batch_ok (bt : Batch) : Prop :=
  four_keys (newImages bt) /\ length (acceptedFiles bt) <= 4.

Definition reader_ok (r : Reader) : Prop :=
  four_keys (captured r) /\ In (direction r) directions.

Definition well_formed (st : Store) : Prop :=
  four_keys (images st) /\ Forall batch_ok (batches st) /\
  Forall reader_ok (readers st).

Definition event_ok (ev : Event) : Prop :=
  match ev with
  | Drop files => length files <= 4
  | Remove dir | Pick dir _ => In dir directions
  | BatchLoad _ _ _ | ReaderLoad _ _ => True
  end.

End ImageUpload.

(** ** services/api.js *)
Module Api.

(** [response.data] as the client reads it: the [error] field of an error
    body, and the fields of an analysis body.  The body is not checked by
    the client; [ai_confidence] is only printed and is left out.  The
    record holds the bodies of the documented shape: the three maps are
    objects, the counts are integers, the states, the densities and the
    [error] field are strings.  What the interceptor does with an [error]
    field of any other kind is [thrown_message] below. *)
Record Data : Type := mkData {
  error : option string;
  vehicle_counts : obj Z;
  traffic_density : obj string;
  signal_states : obj string;
  recommendations : list string;
  analysis_timestamp : string;
  processing_time_ms : Z
}.

(** [data] is [None] when the body is empty ([data?.error]). *)
Record Response : Type := mkResponse {
  status : N;
  data : option Data
}.

(** What the transport produces for one [api.post]: an answer, no answer
    within [timeout: 30000] (or the connection failed), or a request that
    could not be set up. *)
Inductive Wire : Type :=
| Answer (r : Response)
| NoAnswer
| NotSent.

(** The error object handed to the rejection interceptor: [error.response]
    and whether [error.request] is set. *)
Record AxiosError : Type := mkAxiosError {
  response : option Response;
  request : bool
}.

Inductive Settlement : Type :=
| Fulfilled (r : Response)
| Rejected (e : AxiosError).

(** axios with its default [validateStatus]: a status in 200..299 fulfils
    the promise, any other status rejects it with [error.response] set. *)
Definition is_2xx (st : N) : bool := (200 <=? st)%N && (st <? 300)%N.

Definition axios_post (w : Wire) : Settlement :=
  match w with
  | Answer r =>
      if is_2xx (status r) then Fulfilled r
      else Rejected {| response := Some r; request := true |}
  | NoAnswer => Rejected {| response := None; request := true |}
  | NotSent => Rejected {| response := None; request := false |}
  end.

(** [a || b] with a string on the right. *)
Definition or_else (a : option string) (b : string) : string :=
  match a with
  | Some s => if s =? "" then b else s
  | None => b
  end.

(** The template literal [`Server error: ${error.response.status}`]. *)
Definition server_error (st : N) : string :=
  ("Server error: " ++ NilZero.string_of_uint (N.to_uint st))%string.

Definition no_response_message : string :=
  "No response from server. Please check if the backend is running.".

Definition request_failed_message : string :=
  "Request failed. Please check your connection.".

(** The rejection handler of [api.interceptors.response]: the message of
    the [Error] it throws. *)
Definition response_error (e : AxiosError) : string :=
  match response e with
  | Some r =>
      or_else (match data r with Some d => error d | None => None end)
              (server_error (status r))
  | None =>
      if request e then no_response_message else request_failed_message
  end.

(** The [error] field of a body when it is any JSON value, seen through
    the two things the interceptor does with it: [data?.error || ...] tests
    its truthiness, and [new Error(message)] carries its conversion to a
    string ([text]; empty for [[]], for instance). *)
Record Value : Type := mkValue {
  truthy : bool;
  text : string
}.

(** A string field: truthy unless empty, and its own text. *)
Definition of_string (s : string) : Value :=
  {| truthy := negb (s =? ""); text := s |}.

(** The message of the error thrown for an answer outside 200..299 whose
    body has the [error] field [field] ([None]: no body or no field). *)
Definition thrown_message (field : option Value) (st : N) : string :=
  match field with
  | Some v => if truthy v then text v else server_error st
  | None => server_error st
  end.

Definition FormData : Type := list (string * File.t).

(** The [forEach] of [analyzeTraffic] that fills the form. *)
Definition formData_of (images : UploadState) : FormData :=
  flat_map (fun '(direction, imageData) =>
              match imageData with
              | Some img => [(direction, file img)]
              | None => []
              end) (entries images).

(** [analyzeTraffic] after the [await]: [response.data] on success, the
    message of the rethrown error otherwise. *)
Definition analyzeTraffic_result (w : Wire) : option Data + string :=
  match axios_post w with
  | Fulfilled r => inl (data r)
  | Rejected e => inr (response_error e)
  end.

End Api.

(** ** components/AnalysisResults/AnalysisResults.jsx *)
Module AnalysisResults.

(** [Object.values(vehicle_counts).reduce((sum, count) => sum + count, 0)];
    the counts are integers, added as doubles. *)
Definition totalVehicles (analysis : Api.Data) : JsNumber.number :=
  fold_left (fun sum count => JsNumber.add sum count)
            (values (Api.vehicle_counts analysis)) (JsNumber.Finite 0).

(** [Object.values(signal_states).filter(state => state === 'green').length] *)
Definition greenSignals (analysis : Api.Data) : nat :=
  length (filter (fun state => state =? "green")
                 (values (Api.signal_states analysis))).

(** [getDensityDisplay] *)
Definition getDensityDisplay (density : string) : string :=
  JsString.toUpperCase (JsString.replace_char "_" " " density).

(** One badge of the density card: the direction title, the two colours
    looked up by the density ([None] for [undefined]) and the label. *)
Definition density_items (analysis : Api.Data)
    : list (string * option string * option string * string) :=
  map (fun '(direction, density) =>
         (JsString.toUpperCase direction,
          get density Constants.DENSITY_COLORS,
          get density Constants.DENSITY_TEXT_COLORS,
          getDensityDisplay density))
      (entries (Api.traffic_density analysis)).

End AnalysisResults.

(** ** App.jsx *)
Module App.

Record State : Type := mkState {
  images : UploadState;
  analysis : option Api.Data;
  loading : bool;
  error : option string
}.

(** The application with its child component and the network: the
    [ImageUpload] mounted in it, every [api.post] made so far, and how many
    of them have not settled yet. *)
Record World : Type := mkWorld {
  app : State;
  upload : ImageUpload.Store;
  posted : list Api.FormData;
  pending : nat
}.

Definition with_app (w : World) (s : State) : World :=
  {| app := s; upload := upload w; posted := posted w; pending := pending w |}.

Definition initial_state : State :=
  {| images := ImageUpload.initial_images;
     analysis := None; loading := false; error := None |}.

Definition initial : World :=
  {| app := initial_state; upload := ImageUpload.initial;
     posted := []; pending := 0 |}.

Definition incomplete_message : string :=
  "Please upload images for all four directions".

Definition analysis_failed_message : string :=
  "Failed to analyze traffic. Please try again.".

(** [err.message || 'Failed to analyze traffic. Please try again.'] *)
Definition caught_message (message : string) : string :=
  Api.or_else (Some message) analysis_failed_message.

(** [handleImagesUpload] *)
Definition handleImagesUpload (uploadedImages : UploadState) (s : State) : State :=
  {| images := uploadedImages;
     analysis := analysis s;
     loading := loading s;
     error := None |}.

(** [handleAnalyzeTraffic] up to its [await]. *)
Definition handleAnalyzeTraffic (w : World) : World :=
  let s := app w in
  if negb (allImagesUploaded (images s)) then
    with_app w {| images := images s; analysis := analysis s;
                  loading := loading s; error := Some incomplete_message |}
  else
    {| app := {| images := images s; analysis := analysis s;
                 loading := true; error := None |};
       upload := upload w;
       posted := posted w ++ [Api.formData_of (images s)];
       pending := S (pending w) |}.

(** [handleAnalyzeTraffic] after its [await]: [try], [catch], [finally]. *)
Definition settled (outcome : Api.Wire) (s : State) : State :=
  match Api.analyzeTraffic_result outcome with
  | inl result =>
      {| images := images s; analysis := result;
         loading := false; error := error s |}
  | inr message =>
      {| images := images s; analysis := analysis s;
         loading := false;
         error := Some (Api.or_else (Some message) analysis_failed_message) |}
  end.

(** [disabled={!allImagesUploaded || loading}] *)
Definition analyze_disabled (s : State) : bool :=
  negb (allImagesUploaded (images s)) || loading s.

(** A click on the analyze button: a disabled button runs no handler. *)
Definition click_analyze (w : World) : World :=
  if analyze_disabled (app w) then w else handleAnalyzeTraffic w.

(** The header statistics. *)
Definition header_total (analysis : Api.Data) : JsNumber.number :=
  fold_left (fun a b => JsNumber.add a b)
            (values (Api.vehicle_counts analysis)) (JsNumber.Finite 0).

Definition header_green (analysis : Api.Data) : nat :=
  length (filter (fun s => s =? "green") (values (Api.signal_states analysis))).

(** The phases of the request lifecycle as they show in the state
    variables: a stored error, a request in flight, neither. *)
Definition failed (s : State) : Prop := error s <> None.
Definition requesting (s : State) : Prop := loading s = true.
Definition idle (s : State) : Prop := error s = None /\ loading s = false.

(** *** Events of the application

    A click on the analyze button, the settlement of a request, and an
    event of the mounted [<ImageUpload onImagesUpload={handleImagesUpload} />],
    whose notifications run [handleImagesUpload]. *)
Inductive Event : Type :=
| Click
| Settle (outcome : Api.Wire)
| Upload (ev : ImageUpload.Event).

Definition notify (notes : list UploadState) (s : State) : State :=
  fold_left (fun s u => handleImagesUpload u s) notes s.

Definition step (w : World) (ev : Event) : option World :=
  match ev with
  | Click => Some (click_analyze w)
  | Settle outcome =>
      match pending w with
      | O => None
      | S n => Some {| app := settled outcome (app w); upload := upload w;
                       posted := posted w; pending := n |}
      end
  | Upload e =>
      match ImageUpload.step (upload w) e with
      | None => None
      | Some (st', notes) =>
          Some {| app := notify notes (app w); upload := st';
                  posted := posted w; pending := pending w |}
      end
  end.

Fixpoint run (w : World) (evs : list Event) : option World :=
  match evs with
  | [] => Some w
  | ev :: evs' =>
      match step w ev with
      | None => None
      | Some w' => run w' evs'
      end
  end.

(** The loading flag counts the requests in flight. *)
Definition flag_counts (w : World) : Prop :=
  pending w = if loading (app w) then 1 else 0.

(** No error is stored while a request is loading. *)
Definition loading_without_error (w : World) : Prop :=
  loading (app w) = true -> error (app w) = None.

(** When the upload component is complete, the application holds the same
    images. *)
Definition in_sync (w : World) : Prop :=
  allImagesUploaded (ImageUpload.images (upload w)) = true ->
  images (app w) = ImageUpload.images (upload w).

(** The four directions are keys of every object held, and fields of every
    request posted. *)
Definition directions_kept (w : World) : Prop :=
  ImageUpload.has_directions (images (app w)) /\
  ImageUpload.store_has_directions (upload w) /\
  Forall (fun form => incl ImageUpload.directions (map fst form)) (posted w).

End App.

(** ** components/TrafficLight/TrafficLight.jsx *)
Module TrafficLight.

(** The outcome of rendering: the values put on the page, or the
    [TypeError] of a method call on [undefined]. *)
Inductive rendered (A : Type) : Type :=
| Ok (a : A)
| TypeError.
Arguments Ok {A} a.
Arguments TypeError {A}.

(** [a === b] on values that are a string or [undefined]. *)
Definition same (a b : option string) : bool :=
  match a, b with
  | Some x, Some y => x =? y
  | None, None => true
  | _, _ => false
  end.

(** [DENSITY_COLORS[density] || DENSITY_COLORS.very_low] *)
Definition getDensityColor (density : option string) : option string :=
  js_or (get (to_key density) Constants.DENSITY_COLORS)
        (get "very_low" Constants.DENSITY_COLORS).

(** [density.replace('_', ' ').toUpperCase()] *)
Definition getDensityText (density : string) : string :=
  JsString.toUpperCase (JsString.replace_char "_" " " density).

Record View : Type := mkView {
  red_active : bool;
  yellow_active : bool;
  green_active : bool;
  direction_title : string;
  vehicle_count : option Z;
  backgroundColor : option string;
  density_title : string;
  density_letter : string;
  status_class : string;
  status_badge : string
}.

(** The component: [direction.toUpperCase()], [getDensityText(density)]
    and [state.toUpperCase()] are method calls and throw on [undefined];
    the comparisons with [SIGNAL_STATES], [getDensityColor] and the vehicle
    count accept [undefined]. *)
Definition TrafficLight (direction state : option string)
    (vehicleCount : option Z) (density : option string) : rendered View :=
  match direction, density, state with
  | Some dir, Some d, Some s =>
      Ok {| red_active := same state (get "RED" Constants.SIGNAL_STATES);
            yellow_active := same state (get "YELLOW" Constants.SIGNAL_STATES);
            green_active := same state (get "GREEN" Constants.SIGNAL_STATES);
            direction_title := JsString.toUpperCase dir;
            vehicle_count := vehicleCount;
            backgroundColor := getDensityColor density;
            density_title := ("Traffic density: " ++ getDensityText d)%string;
            density_letter := JsString.charAt0 (getDensityText d);
            status_class := ("status-badge " ++ s)%string;
            status_badge := JsString.toUpperCase s |}
  | _, _, _ => TypeError
  end.

End TrafficLight.

(** ** components/TrafficIntersection/TrafficIntersection.jsx *)
Module TrafficIntersection.

(** One [<TrafficLight ... />] of the intersection, for the constant
    [DIRECTIONS.NAME]. *)
Definition light (analysis : Api.Data) (NAME : string)
    : TrafficLight.rendered TrafficLight.View :=
  let direction := get NAME Constants.DIRECTIONS in
  TrafficLight.TrafficLight direction
    (get (to_key direction) (Api.signal_states analysis))
    (get (to_key direction) (Api.vehicle_counts analysis))
    (get (to_key direction) (Api.traffic_density analysis)).

Fixpoint all_rendered {A} (l : list (TrafficLight.rendered A))
    : TrafficLight.rendered (list A) :=
  match l with
  | [] => TrafficLight.Ok []
  | TrafficLight.TypeError :: _ => TrafficLight.TypeError
  | TrafficLight.Ok a :: l' =>
      match all_rendered l' with
      | TrafficLight.Ok r => TrafficLight.Ok (a :: r)
      | TrafficLight.TypeError => TrafficLight.TypeError
      end
  end.

(** The four lights, north, south, east, west: the render throws as soon
    as one of them does. *)
Definition TrafficIntersection (analysis : Api.Data)
    : TrafficLight.rendered (list TrafficLight.View) :=
  all_rendered (map (light analysis) ["NORTH"; "SOUTH"; "EAST"; "WEST"]).

End TrafficIntersection.

(** ** Sample inputs *)

(** Sample bodies: an error body, and an analysis body whose
    [signal_states] has no [west]. *)
Definition error_body (message : string) : Api.Data :=
  {| Api.error := Some message;
     Api.vehicle_counts := []; Api.traffic_density := [];
     Api.signal_states := []; Api.recommendations := [];
     Api.analysis_timestamp := ""; Api.processing_time_ms := 0 |}.

Definition body_without_west : Api.Data :=
  {| Api.error := None;
     Api.vehicle_counts :=
       [("north", 12); ("south", 5); ("east", 8); ("west", 3)]%Z;
     Api.traffic_density :=
       [("north", "high"); ("south", "low"); ("east", "medium"); ("west", "low")];
     Api.signal_states :=
       [("north", "green"); ("south", "red"); ("east", "red")];
     Api.recommendations := [];
     Api.analysis_timestamp := "2024-01-01T00:00:00Z";
     Api.processing_time_ms := 120 |}.

(** The application while a request is in flight. *)
Definition in_flight_state : App.State :=
  {| App.images := ImageUpload.initial_images; App.analysis := None;
     App.loading := true; App.error := None |}.

(** The body of scenario 3, complete. *)
Definition sample_body : Api.Data :=
  {| Api.error := None;
     Api.vehicle_counts :=
       [("north", 12); ("south", 5); ("east", 8); ("west", 3)]%Z;
     Api.traffic_density :=
       [("north", "high"); ("south", "low"); ("east", "medium"); ("west", "low")];
     Api.signal_states :=
       [("west", "red"); ("north", "green"); ("south", "red"); ("east", "green")];
     Api.recommendations := ["Extend the green phase for north"];
     Api.analysis_timestamp := "2024-01-01T00:00:00Z";
     Api.processing_time_ms := 120 |}.

Definition sample_file (n : string) : File.t := {| File.name := n; File.size := 1024 |}.

(** A run of the application: four files are dropped and decoded, the
    analyze button is clicked. *)
Definition full_images : UploadState :=
  [("north", Some (image_of (sample_file "n.png") "data:n"));
   ("south", Some (image_of (sample_file "s.png") "data:s"));
   ("east", Some (image_of (sample_file "e.png") "data:e"));
   ("west", Some (image_of (sample_file "w.png") "data:w"))].

Definition drop_four : list App.Event :=
  [App.Upload (ImageUpload.Drop [sample_file "n.png"; sample_file "s.png";
                                 sample_file "e.png"; sample_file "w.png"]);
   App.Upload (ImageUpload.BatchLoad 0 0 "data:n");
   App.Upload (ImageUpload.BatchLoad 0 1 "data:s");
   App.Upload (ImageUpload.BatchLoad 0 2 "data:e");
   App.Upload (ImageUpload.BatchLoad 0 3 "data:w")].

Definition full_store : ImageUpload.Store :=
  {| ImageUpload.images := full_images;
     ImageUpload.batches :=
       [{| ImageUpload.newImages := full_images;
           ImageUpload.acceptedFiles :=
             [sample_file "n.png"; sample_file "s.png";
              sample_file "e.png"; sample_file "w.png"];
           ImageUpload.loaded := [3; 2; 1; 0] |}];
     ImageUpload.readers := [] |}.

(** The world after [drop_four] and a click: one request in flight. *)
Definition requesting_world : App.World :=
  {| App.app := {| App.images := full_images; App.analysis := None;
                   App.loading := true; App.error := None |};
     App.upload := full_store;
     App.posted := [Api.formData_of full_images];
     App.pending := 1 |}.

(** The world after that request got no answer. *)
Definition failed_world : App.World :=
  {| App.app := {| App.images := full_images; App.analysis := None;
                   App.loading := false;
                   App.error := Some Api.no_response_message |};
     App.upload := full_store;
     App.posted := [Api.formData_of full_images];
     App.pending := 0 |}.

(** The orders in which the four readers of a four-file drop can finish. *)
Definition orders4 : list (list nat) :=
  Eval cbv in
  flat_map (fun a => flat_map (fun b => flat_map (fun c => flat_map (fun d =>
    if forallb (fun i => existsb (Nat.eqb i) [a; b; c; d]) [0; 1; 2; 3]
    then [[a; b; c; d]] else [])
    [0; 1; 2; 3]) [0; 1; 2; 3]) [0; 1; 2; 3]) [0; 1; 2; 3].

(** * Properties *)

(** ** Objects *)
Section ObjectFacts.
Context {V : Type}.
Implicit Types (o : obj V) (k : string) (v : V).

Lemma keys_set_present k v o :
  In k (keys o) -> keys (set k v o) = keys o.
Proof.
  induction o as [|[k' v'] o IH]; simpl; [tauto|].
  destruct (k' =? k) eqn:E.
  - apply String.eqb_eq in E. now subst.
  - intros [H|H].
    + subst. rewrite String.eqb_refl in E. discriminate.
    + unfold keys in *. simpl. now rewrite IH.
Qed.

Lemma get_set_same k v o : get k (set k v o) = Some v.
Proof.
  induction o as [|[k' v'] o IH]; simpl.
  - now rewrite String.eqb_refl.
  - destruct (k' =? k) eqn:E; simpl.
    + now rewrite String.eqb_refl.
    + now rewrite E.
Qed.

Lemma get_set_other k k' v o :
  (k =? k') = false -> get k' (set k v o) = get k' o.
Proof.
  intros Hne. induction o as [|[k0 v0] o IH]; simpl.
  - now rewrite Hne.
  - destruct (k0 =? k) eqn:E; simpl.
    + apply String.eqb_eq in E. subst k0. now rewrite Hne.
    + now rewrite IH.
Qed.

Lemma get_In_values k v o : get k o = Some v -> In v (values o).
Proof.
  induction o as [|[k' v'] o IH]; simpl; [discriminate|].
  destruct (k' =? k).
  - intros [= ->]. now left.
  - intros H. right. now apply IH.
Qed.

Lemma get_In_keys k v o : get k o = Some v -> In k (keys o).
Proof.
  induction o as [|[k' v'] o IH]; simpl; [discriminate|].
  destruct (k' =? k) eqn:E.
  - apply String.eqb_eq in E. now left.
  - intros H. right. now apply IH.
Qed.

End ObjectFacts.

Lemma empty_slot_not_all_uploaded (images : UploadState) d :
  get d images = Some None -> allImagesUploaded images = false.
Proof.
  intros H. apply get_In_values in H.
  unfold allImagesUploaded.
  destruct (forallb not_null (values images)) eqn:E; [|reflexivity].
  rewrite forallb_forall in E. specialize (E _ H). discriminate.
Qed.

(** ** The request lifecycle *)

(** C1. Whenever some direction slot of the application's upload state is
    empty, [handleAnalyzeTraffic] makes no request (the list of posts and
    the number of pending requests are unchanged), stores the
    incomplete-upload message as the error (the failed phase), and leaves
    every other state variable alone. *)
Theorem handleAnalyzeTraffic_incomplete (w : App.World) :
  (exists d, In d ImageUpload.directions /\
             get d (App.images (App.app w)) = Some None) ->
  let w' := App.handleAnalyzeTraffic w in
  App.posted w' = App.posted w /\
  App.pending w' = App.pending w /\
  App.error (App.app w') = Some App.incomplete_message /\
  App.failed (App.app w') /\
  App.images (App.app w') = App.images (App.app w) /\
  App.analysis (App.app w') = App.analysis (App.app w) /\
  App.loading (App.app w') = App.loading (App.app w) /\
  App.upload w' = App.upload w.
Proof.
  intros (d & _ & Hd). apply empty_slot_not_all_uploaded in Hd.
  unfold App.handleAnalyzeTraffic, App.failed. rewrite Hd. simpl.
  repeat split; discriminate.
Qed.

Lemma handleAnalyzeTraffic_incomplete_witness :
  let w' := App.handleAnalyzeTraffic App.initial in
  App.posted w' = [] /\
  App.pending w' = 0 /\
  App.error (App.app w') = Some App.incomplete_message /\
  App.failed (App.app w') /\
  App.images (App.app w') = ImageUpload.initial_images /\
  App.analysis (App.app w') = None /\
  App.loading (App.app w') = false /\
  App.upload w' = ImageUpload.initial.
Proof.
  apply (handleAnalyzeTraffic_incomplete App.initial).
  exists "west". split; [simpl; tauto | reflexivity].
Defined.

(** C10. For every direction, [handleIndividualUpload] on an empty selection
    ([event.target.files[0]] undefined) leaves the component as it was,
    starts no reader and calls [onImagesUpload] not at all; the application
    around it is unchanged as well. *)
Theorem handleIndividualUpload_no_file (dir : string) (st : ImageUpload.Store)
    (w : App.World) :
  ImageUpload.handleIndividualUpload dir [] st = (st, []) /\
  ImageUpload.step st (ImageUpload.Pick dir []) = Some (st, []) /\
  App.step w (App.Upload (ImageUpload.Pick dir [])) = Some w.
Proof.
  repeat split. destruct w as [s u p n]. reflexivity.
Qed.

(** *** Settlement of a request *)

Lemma server_error_not_empty st : (Api.server_error st =? "") = false.
Proof. reflexivity. Qed.

Lemma settled_rejected (r : Api.Response) (s : App.State) :
  Api.is_2xx (Api.status r) = false ->
  App.settled (Api.Answer r) s =
  {| App.images := App.images s; App.analysis := App.analysis s;
     App.loading := false;
     App.error := Some (Api.or_else
       (Some (Api.or_else
                (match Api.data r with Some d => Api.error d | None => None end)
                (Api.server_error (Api.status r))))
       App.analysis_failed_message) |}.
Proof.
  intros H. unfold App.settled, Api.analyzeTraffic_result, Api.axios_post.
  now rewrite H.
Qed.

(** C6, as stated, fails at an error body whose [error] field is the empty
    string: the field is present, yet the message is the one built from the
    status code. *)
Lemma empty_error_field_uses_status :
  let r := {| Api.status := 500; Api.data := Some (error_body "") |} in
  Api.is_2xx (Api.status r) = false /\
  (exists d, Api.data r = Some d /\ Api.error d = Some "") /\
  App.error (App.settled (Api.Answer r) in_flight_state) = Some "Server error: 500" /\
  App.error (App.settled (Api.Answer r) in_flight_state) <> Some "".
Proof.
  repeat split; try discriminate.
  exists (error_body ""). split; reflexivity.
Qed.

(** C6 (amended). The error stored after a failed request: for a response
    outside 200..299 it is the body's [error] field when that field is
    present and not empty, and the text built from the status code when the
    body is missing, has no [error] field or has an empty one; when no
    response arrives it is the fixed no-response message, whatever a server
    might have sent.  In each case the request is no longer loading and the
    stored analysis is untouched. *)
Theorem failure_classifier (s : App.State) (r : Api.Response) :
  Api.is_2xx (Api.status r) = false ->
  (forall d m, Api.data r = Some d -> Api.error d = Some m -> m <> "" ->
     App.error (App.settled (Api.Answer r) s) = Some m) /\
  ((Api.data r = None \/
    exists d, Api.data r = Some d /\
              (Api.error d = None \/ Api.error d = Some "")) ->
     App.error (App.settled (Api.Answer r) s) =
       Some (Api.server_error (Api.status r))) /\
  App.error (App.settled Api.NoAnswer s) = Some Api.no_response_message /\
  App.loading (App.settled (Api.Answer r) s) = false /\
  App.loading (App.settled Api.NoAnswer s) = false /\
  App.analysis (App.settled (Api.Answer r) s) = App.analysis s /\
  App.analysis (App.settled Api.NoAnswer s) = App.analysis s.
Proof.
  intros H2. rewrite (settled_rejected r s H2).
  cbn [App.error App.loading App.analysis].
  repeat split.
  - intros d m -> -> Hm. cbn [Api.or_else].
    destruct (m =? "") eqn:E; [apply String.eqb_eq in E; contradiction|].
    now rewrite E.
  - intros [-> | (d & -> & [-> | ->])]; cbn [Api.or_else String.eqb];
      now rewrite server_error_not_empty.
Qed.

Lemma failure_classifier_witness :
  App.error (App.settled
    (Api.Answer {| Api.status := 500;
                   Api.data := Some (error_body "model unavailable") |})
    in_flight_state) = Some "model unavailable".
Proof.
  apply (proj1 (failure_classifier in_flight_state
    {| Api.status := 500; Api.data := Some (error_body "model unavailable") |}
    eq_refl) (error_body "model unavailable") "model unavailable");
    [reflexivity | reflexivity | discriminate].
Defined.

(** C4, as stated, fails: a 200 response whose [signal_states] lacks [west]
    is stored as the analysis, and no error is recorded. *)
Lemma partial_result_is_accepted :
  let r := {| Api.status := 200; Api.data := Some body_without_west |} in
  let s' := App.settled (Api.Answer r) in_flight_state in
  get "west" (Api.signal_states body_without_west) = None /\
  App.analysis s' = Some body_without_west /\
  App.error s' = None /\
  ~ App.failed s'.
Proof.
  repeat split. unfold App.failed. simpl. tauto.
Qed.

(** C4 (amended). A response with a status in 200..299 is never inspected:
    whatever its body contains or lacks, the body becomes the stored
    analysis, loading ends, and the error and the images stay as they
    were. *)
Theorem success_body_is_stored_unchecked (s : App.State) (r : Api.Response) :
  Api.is_2xx (Api.status r) = true ->
  App.settled (Api.Answer r) s =
  {| App.images := App.images s; App.analysis := Api.data r;
     App.loading := false; App.error := App.error s |}.
Proof.
  intros H. unfold App.settled, Api.analyzeTraffic_result, Api.axios_post.
  now rewrite H.
Qed.

Lemma success_body_is_stored_unchecked_witness :
  App.settled
    (Api.Answer {| Api.status := 200; Api.data := Some body_without_west |})
    in_flight_state =
  {| App.images := ImageUpload.initial_images;
     App.analysis := Some body_without_west;
     App.loading := false; App.error := None |}.
Proof.
  apply (success_body_is_stored_unchecked in_flight_state
    {| Api.status := 200; Api.data := Some body_without_west |}).
  reflexivity.
Defined.

(** ** The result projection *)

Section Projection.
Context {V : Type}.

Lemma get_along_keys (o : obj V) :
  NoDup (keys o) -> map (fun k => get k o) (keys o) = map Some (values o).
Proof.
  induction o as [|[k v] o IH]; [reflexivity|].
  unfold keys, values in *. simpl. intros Hnd.
  apply NoDup_cons_iff in Hnd as [Hk Hnd].
  rewrite String.eqb_refl. f_equal.
  rewrite <- (IH Hnd). apply map_ext_in. intros k' Hk'.
  destruct (k =? k') eqn:E; [|reflexivity].
  apply String.eqb_eq in E. subst. contradiction.
Qed.

(** The values of an object whose keys are the four directions, in the
    order of [directions]. *)
Lemma values_of_four_directions (o : obj V) :
  Permutation (keys o) ImageUpload.directions ->
  exists n s e w,
    get "north" o = Some n /\ get "south" o = Some s /\
    get "east" o = Some e /\ get "west" o = Some w /\
    Permutation (values o) [n; s; e; w].
Proof.
  intros HP.
  assert (Hnd : NoDup (keys o)).
  { apply (Permutation_NoDup (Permutation_sym HP)).
    repeat constructor; simpl; intuition discriminate. }
  pose proof (Permutation_map (fun k => get k o) HP) as HM.
  rewrite (get_along_keys o Hnd) in HM. apply Permutation_sym in HM.
  apply Permutation_map_inv in HM as (l & Hl & Hperm).
  destruct l as [|n [|s [|e [|w [|? ?]]]]]; try discriminate Hl.
  injection Hl as Hn Hs He Hw.
  exists n, s, e, w. auto.
Qed.

End Projection.

Lemma round_small (x : Z) :
  (0 <= x < 2 ^ 53)%Z -> JsNumber.round_to_double x = JsNumber.Finite x.
Proof.
  change (2 ^ 53)%Z with 9007199254740992%Z. intros Hx.
  unfold JsNumber.round_to_double.
  destruct (Z.abs x <? 9007199254740992)%Z eqn:E; [reflexivity|].
  apply Z.ltb_ge in E. lia.
Qed.

(** Below [2^53] the doubles add counts exactly, in whatever order. *)
Lemma sum_exact (l : list Z) :
  Forall (fun c => 0 <= c)%Z l ->
  forall a, (0 <= a)%Z -> (a + fold_right Z.add 0%Z l < 2 ^ 53)%Z ->
  fold_left (fun sum count => JsNumber.add sum count) l (JsNumber.Finite a) =
  JsNumber.Finite (a + fold_right Z.add 0%Z l).
Proof.
  induction 1 as [|c l Hc Hl IH]; intros a Ha Hsum; simpl in *.
  - f_equal. lia.
  - assert (Hrest : (0 <= fold_right Z.add 0%Z l)%Z).
    { clear -Hl. induction Hl; simpl; lia. }
    rewrite round_small by lia.
    rewrite IH by lia. f_equal. lia.
Qed.

Lemma exact_sum_permutation (l l' : list Z) :
  Permutation l l' -> fold_right Z.add 0%Z l = fold_right Z.add 0%Z l'.
Proof.
  induction 1 as [|x l l' _ IH|x y l|l l' l'' _ IH1 _ IH2]; simpl; lia.
Qed.

Lemma count_permutation {A} (p : A -> bool) (l l' : list A) :
  Permutation l l' -> length (filter p l) = length (filter p l').
Proof.
  induction 1 as [|x l l' _ IH|x y l|l l' l'' _ IH1 _ IH2]; simpl.
  - reflexivity.
  - destruct (p x); simpl; now rewrite IH.
  - destruct (p x), (p y); reflexivity.
  - now rewrite IH1.
Qed.

(** C7. For a result whose [vehicle_counts] and [signal_states] are keyed by
    the four directions (in any key order), [greenSignals] is the number of
    directions whose signal state is ['green'], and [totalVehicles] is the
    sum of the four counts whenever the counts are not negative and their
    sum is below [2^53], where the doubles add them exactly; the header
    statistics of the application compute the same two numbers.  Both are
    functions of the result alone and return a number: nothing is
    written. *)
Theorem projection_totals (analysis : Api.Data) :
  Permutation (keys (Api.vehicle_counts analysis)) ImageUpload.directions ->
  Permutation (keys (Api.signal_states analysis)) ImageUpload.directions ->
  exists n s e w a b c d,
    get "north" (Api.vehicle_counts analysis) = Some n /\
    get "south" (Api.vehicle_counts analysis) = Some s /\
    get "east" (Api.vehicle_counts analysis) = Some e /\
    get "west" (Api.vehicle_counts analysis) = Some w /\
    get "north" (Api.signal_states analysis) = Some a /\
    get "south" (Api.signal_states analysis) = Some b /\
    get "east" (Api.signal_states analysis) = Some c /\
    get "west" (Api.signal_states analysis) = Some d /\
    ((0 <= n)%Z -> (0 <= s)%Z -> (0 <= e)%Z -> (0 <= w)%Z ->
     (n + s + e + w < 2 ^ 53)%Z ->
     AnalysisResults.totalVehicles analysis =
       JsNumber.Finite (n + s + e + w)) /\
    AnalysisResults.greenSignals analysis =
      length (filter (fun state => state =? "green") [a; b; c; d]) /\
    App.header_total analysis = AnalysisResults.totalVehicles analysis /\
    App.header_green analysis = AnalysisResults.greenSignals analysis.
Proof.
  intros Hc Hs.
  destruct (values_of_four_directions _ Hc) as (n & s & e & w & ? & ? & ? & ? & Pc).
  destruct (values_of_four_directions _ Hs) as (a & b & c & d & ? & ? & ? & ? & Ps).
  exists n, s, e, w, a, b, c, d.
  repeat (split; [assumption|]).
  split; [|split; [|split; reflexivity]].
  - intros Hn Hs' He Hw Hsum. unfold AnalysisResults.totalVehicles.
    pose proof (exact_sum_permutation _ _ Pc) as Hx. simpl in Hx.
    rewrite sum_exact.
    + f_equal. lia.
    + apply (Permutation_Forall (Permutation_sym Pc)).
      repeat constructor; assumption.
    + lia.
    + lia.
  - unfold AnalysisResults.greenSignals.
    now rewrite (count_permutation _ _ _ Ps).
Qed.

Lemma projection_totals_witness :
  AnalysisResults.totalVehicles sample_body = JsNumber.Finite 28 /\
  AnalysisResults.greenSignals sample_body = 2.
Proof.
  destruct (projection_totals sample_body) as
    (n & s & e & w & a & b & c & d &
     Hn & Hs & He & Hw & Ha & Hb & Hc & Hd & Ht & Hg & _).
  - apply Permutation_refl.
  - simpl. change ImageUpload.directions with (["north"; "south"; "east"] ++ ["west"]).
    apply (Permutation_cons_app ["north"; "south"; "east"] []).
    apply Permutation_refl.
  - simpl in Hn, Hs, He, Hw, Ha, Hb, Hc, Hd.
    injection Hn as <-. injection Hs as <-. injection He as <-. injection Hw as <-.
    injection Ha as <-. injection Hb as <-. injection Hc as <-. injection Hd as <-.
    rewrite Ht, Hg; [split; reflexivity | lia | lia | lia | lia | reflexivity].
Defined.

(** From [2^53] on the sum is the rounded one of the doubles, not the
    integer sum: [2^53 + 1 + 1] is [2^53]. *)
Example total_is_rounded_like_the_doubles :
  AnalysisResults.totalVehicles
    {| Api.error := None;
       Api.vehicle_counts :=
         [("north", 9007199254740992); ("south", 1);
          ("east", 1); ("west", 0)]%Z;
       Api.traffic_density := []; Api.signal_states := [];
       Api.recommendations := []; Api.analysis_timestamp := "";
       Api.processing_time_ms := 0 |} = JsNumber.Finite 9007199254740992.
Proof. vm_compute. reflexivity. Qed.

(** ** The upload component *)

Lemma nth_error_after {A} (l : list A) (x : A) :
  nth_error (l ++ [x]) (length l) = Some x.
Proof. induction l; simpl; auto. Qed.

Lemma replace_nth_after {A} (l : list A) (x y : A) :
  ImageUpload.replace_nth (length l) y (l ++ [x]) = l ++ [y].
Proof. induction l; simpl; [reflexivity|]. now f_equal. Qed.

(** The readers of the batch dropped last act on that batch only. *)
Lemma run_last_batch results order :
  forall imgs bs bt rs,
  ImageUpload.run
    {| ImageUpload.images := imgs; ImageUpload.batches := bs ++ [bt];
       ImageUpload.readers := rs |}
    (ImageUpload.assignBulk_events (length bs) results order) =
  match ImageUpload.loads results order bt with
  | None => None
  | Some (bt', notes) =>
      Some ({| ImageUpload.images :=
                 match order with [] => imgs | _ => ImageUpload.newImages bt' end;
               ImageUpload.batches := bs ++ [bt'];
               ImageUpload.readers := rs |}, notes)
  end.
Proof.
  induction order as [|index order IH]; intros imgs bs bt rs; [reflexivity|].
  cbn [ImageUpload.assignBulk_events map ImageUpload.run ImageUpload.step
       ImageUpload.loads ImageUpload.batches ImageUpload.images
       ImageUpload.readers].
  rewrite nth_error_after.
  destruct (nth_error (ImageUpload.acceptedFiles bt) index) as [f|]; [|reflexivity].
  destruct (existsb (Nat.eqb index) (ImageUpload.loaded bt)); [reflexivity|].
  destruct (ImageUpload.onDrop_onload _ index f _ _) as [o' n1].
  rewrite replace_nth_after.
  fold (ImageUpload.assignBulk_events (length bs) results order).
  rewrite IH.
  destruct order as [|i order']; [reflexivity|].
  destruct (ImageUpload.loads results (i :: order') _) as [[bt' n2]|];
    reflexivity.
Qed.

Lemma assignBulk_loads files results order st :
  ImageUpload.assignBulk files results order st =
  match ImageUpload.loads results order
          {| ImageUpload.newImages :=
               ImageUpload.onDrop_newImages (ImageUpload.images st) files;
             ImageUpload.acceptedFiles := files;
             ImageUpload.loaded := [] |} with
  | None => None
  | Some (bt', notes) =>
      Some ({| ImageUpload.images :=
                 match order with
                 | [] => ImageUpload.images st
                 | _ => ImageUpload.newImages bt'
                 end;
               ImageUpload.batches := ImageUpload.batches st ++ [bt'];
               ImageUpload.readers := ImageUpload.readers st |}, notes)
  end.
Proof.
  unfold ImageUpload.assignBulk.
  change (ImageUpload.run st (ImageUpload.Drop files :: ?evs))
    with (match ImageUpload.run (ImageUpload.onDrop files st) evs with
          | None => None
          | Some (st2, n2) => Some (st2, [] ++ n2)
          end).
  unfold ImageUpload.onDrop. rewrite run_last_batch.
  destruct (ImageUpload.loads results order _) as [[bt' notes]|]; reflexivity.
Qed.

Lemma orders_of_four (order : list nat) :
  Permutation order [0; 1; 2; 3] -> In order orders4.
Proof.
  intros P.
  pose proof (Permutation_length P) as Hlen.
  destruct order as [|a [|b [|c [|d [|? ?]]]]]; try discriminate Hlen.
  assert (Ha : In a [0; 1; 2; 3]) by (apply (Permutation_in _ P); simpl; tauto).
  assert (Hb : In b [0; 1; 2; 3]) by (apply (Permutation_in _ P); simpl; tauto).
  assert (Hc : In c [0; 1; 2; 3]) by (apply (Permutation_in _ P); simpl; tauto).
  assert (Hd : In d [0; 1; 2; 3]) by (apply (Permutation_in _ P); simpl; tauto).
  assert (Hnd : NoDup [a; b; c; d]).
  { apply (Permutation_NoDup (Permutation_sym P)).
    repeat constructor; simpl; intuition discriminate. }
  apply NoDup_cons_iff in Hnd as [N1 Hnd].
  apply NoDup_cons_iff in Hnd as [N2 Hnd].
  apply NoDup_cons_iff in Hnd as [N3 _].
  simpl in Ha, Hb, Hc, Hd, N1, N2, N3.
  destruct Ha as [<-|[<-|[<-|[<-|[]]]]];
    destruct Hb as [<-|[<-|[<-|[<-|[]]]]]; try (exfalso; tauto);
    destruct Hc as [<-|[<-|[<-|[<-|[]]]]]; try (exfalso; tauto);
    destruct Hd as [<-|[<-|[<-|[<-|[]]]]]; try (exfalso; tauto);
    unfold orders4; repeat (first [left; reflexivity | right]).
Qed.

Lemma four_direction_keys (o : UploadState) :
  keys o = ImageUpload.directions ->
  exists n s e w, o = [("north", n); ("south", s); ("east", e); ("west", w)].
Proof.
  destruct o as [|[k1 n] [|[k2 s] [|[k3 e] [|[k4 w] [|? ?]]]]]; try discriminate.
  intros [= -> -> -> ->]. now exists n, s, e, w.
Qed.

(** C2. Dropping exactly four files [a; b; c; d], whatever they are called
    and whatever the component held before: once the four readers have
    fired, in whichever order, [north] holds [a], [south] holds [b], [east]
    holds [c] and [west] holds [d], each slot with the file itself, its
    decoded preview, its name and its size.  When the prior state has the
    four direction keys the final state is exactly
    [{north: a, south: b, east: c, west: d}], and the only notification is
    that final state. *)
Theorem assignBulk_four_files (st : ImageUpload.Store) (a b c d : File.t)
    (ra rb rc rd : string) (order : list nat) :
  Permutation order [0; 1; 2; 3] ->
  let slot (f : File.t) (result : string) : ImageSlot :=
    Some {| file := f; preview := result;
            name := File.name f; size := File.size f |} in
  (exists st' notes,
     ImageUpload.assignBulk [a; b; c; d] [ra; rb; rc; rd] order st =
       Some (st', notes) /\
     get "north" (ImageUpload.images st') = Some (slot a ra) /\
     get "south" (ImageUpload.images st') = Some (slot b rb) /\
     get "east" (ImageUpload.images st') = Some (slot c rc) /\
     get "west" (ImageUpload.images st') = Some (slot d rd)) /\
  (keys (ImageUpload.images st) = ImageUpload.directions ->
   let final : UploadState :=
     [("north", slot a ra); ("south", slot b rb);
      ("east", slot c rc); ("west", slot d rd)] in
   ImageUpload.assignBulk [a; b; c; d] [ra; rb; rc; rd] order st =
   Some ({| ImageUpload.images := final;
            ImageUpload.batches := ImageUpload.batches st ++
              [{| ImageUpload.newImages := final;
                  ImageUpload.acceptedFiles := [a; b; c; d];
                  ImageUpload.loaded := rev order |}];
            ImageUpload.readers := ImageUpload.readers st |}, [final])).
Proof.
  intros HP slot. subst slot. cbv beta. rewrite assignBulk_loads.
  apply orders_of_four in HP. unfold orders4 in HP. simpl in HP.
  split.
  - repeat (destruct HP as [<- | HP];
      [ cbn [ImageUpload.loads ImageUpload.acceptedFiles nth_error existsb
             ImageUpload.loaded Nat.eqb orb ImageUpload.onDrop_onload
             ImageUpload.newImages nth ImageUpload.onload_direction length
             to_key ImageUpload.directions app];
        eexists; eexists; split; [reflexivity|];
        cbn [ImageUpload.images ImageUpload.newImages];
        unfold image_of;
        repeat split;
        repeat (first [apply get_set_same
                      | rewrite get_set_other by reflexivity])
      |]).
    destruct HP.
  - intros Hk final.
    destruct (four_direction_keys _ Hk) as (n & s & e & w & ->).
    repeat (destruct HP as [<- | HP]; [reflexivity|]).
    destruct HP.
Qed.

Lemma assignBulk_four_files_witness :
  option_map (fun r => ImageUpload.images (fst r))
    (ImageUpload.assignBulk
       [sample_file "z.png"; sample_file "a.png";
        sample_file "west.png"; sample_file "north.png"]
       ["data:1"; "data:2"; "data:3"; "data:4"] [2; 0; 3; 1]
       ImageUpload.initial) =
  Some [("north", Some {| file := sample_file "z.png"; preview := "data:1";
                          name := "z.png"; size := 1024 |});
        ("south", Some {| file := sample_file "a.png"; preview := "data:2";
                          name := "a.png"; size := 1024 |});
        ("east", Some {| file := sample_file "west.png"; preview := "data:3";
                         name := "west.png"; size := 1024 |});
        ("west", Some {| file := sample_file "north.png"; preview := "data:4";
                         name := "north.png"; size := 1024 |})].
Proof.
  rewrite (proj2 (assignBulk_four_files ImageUpload.initial
             (sample_file "z.png") (sample_file "a.png")
             (sample_file "west.png") (sample_file "north.png")
             "data:1" "data:2" "data:3" "data:4" [2; 0; 3; 1]
             (Permutation_cons_app [0; 1] [3] 2
                (perm_skip 0 (perm_swap 1 3 []))))).
  - reflexivity.
  - reflexivity.
Defined.

(** C5 fails on the code: five files dropped on the empty component, their
    readers firing in file order.  The first four fill the four empty
    slots; the fifth finds none empty, falls back to [directions[4]], which
    is [undefined], and so writes a fifth key named "undefined". *)
Theorem onDrop_five_files_adds_key (f0 f1 f2 f3 f4 : File.t)
    (r0 r1 r2 r3 r4 : string) :
  option_map (fun r => keys (ImageUpload.images (fst r)))
    (ImageUpload.assignBulk [f0; f1; f2; f3; f4] [r0; r1; r2; r3; r4]
       [0; 1; 2; 3; 4] ImageUpload.initial) =
  Some ["north"; "south"; "east"; "west"; "undefined"].
Proof. reflexivity. Qed.

(** *** The four keys are kept by drops of at most four files *)

Lemma set_keeps_four_keys (o : UploadState) dir v :
  ImageUpload.four_keys o -> In dir ImageUpload.directions ->
  ImageUpload.four_keys (set dir v o).
Proof.
  unfold ImageUpload.four_keys. intros Hk Hd.
  rewrite keys_set_present; [assumption | now rewrite Hk].
Qed.

Lemma onDrop_newImages_four_keys (o : UploadState) files :
  ImageUpload.four_keys o ->
  ImageUpload.four_keys (ImageUpload.onDrop_newImages o files).
Proof.
  intros Hk. unfold ImageUpload.onDrop_newImages.
  destruct (Nat.eqb (length files) 4); [|assumption].
  simpl. repeat apply set_keeps_four_keys; simpl; tauto.
Qed.

Lemma first_empty_in_keys (o : UploadState) dir :
  ImageUpload.first_empty o = Some dir -> In dir (keys o).
Proof.
  unfold ImageUpload.first_empty. intros H.
  now apply find_some in H as [H _].
Qed.

Lemma onload_direction_ok files index f (o : UploadState) :
  ImageUpload.four_keys o -> length files <= 4 ->
  nth_error files index = Some f ->
  In (ImageUpload.onload_direction files index o) ImageUpload.directions.
Proof.
  intros Hk Hlen Hf.
  assert (Hi : index < 4).
  { assert (index < length files) by (apply nth_error_Some; congruence). lia. }
  destruct (nth_error ImageUpload.directions index) as [d|] eqn:Hd.
  2:{ apply nth_error_None in Hd. simpl in Hd. lia. }
  assert (Hin : In d ImageUpload.directions) by (eapply nth_error_In; eauto).
  unfold ImageUpload.onload_direction. rewrite Hd.
  destruct (Nat.eqb (length files) 4); [exact Hin|].
  destruct (ImageUpload.first_empty o) as [k|] eqn:Hfe; [|exact Hin].
  apply first_empty_in_keys in Hfe. rewrite Hk in Hfe.
  unfold js_or.
  destruct (k =? "") eqn:E; [exact Hin | exact Hfe].
Qed.

Lemma Forall_replace_nth {A} (P : A -> Prop) n x (l : list A) :
  Forall P l -> P x -> Forall P (ImageUpload.replace_nth n x l).
Proof.
  intros Hl Hx. revert n. induction Hl as [|y l Hy Hl IH]; intros [|n]; simpl;
    constructor; auto.
Qed.

Lemma Forall_remove_nth {A} (P : A -> Prop) n (l : list A) :
  Forall P l -> Forall P (ImageUpload.remove_nth n l).
Proof.
  intros Hl. revert n. induction Hl as [|y l Hy Hl IH]; intros [|n]; simpl;
    try constructor; auto.
Qed.

Lemma Forall_nth_error {A} (P : A -> Prop) n x (l : list A) :
  Forall P l -> nth_error l n = Some x -> P x.
Proof.
  intros Hl Hn. apply nth_error_In in Hn.
  rewrite Forall_forall in Hl. auto.
Qed.

(** The invariant behind the four-slot state: it is kept by every event
    that a drop of at most four files or a rendered slot can produce. *)
Lemma step_well_formed st ev st' notes :
  ImageUpload.well_formed st -> ImageUpload.event_ok ev ->
  ImageUpload.step st ev = Some (st', notes) ->
  ImageUpload.well_formed st' /\ Forall ImageUpload.four_keys notes.
Proof.
  intros (Hi & Hb & Hr) Hev.
  destruct ev as [files|b index result|dir|dir files|r result]; simpl.
  - intros [= <- <-]. split; [|constructor].
    repeat split; simpl; try assumption.
    apply Forall_app. split; [assumption|].
    constructor; [|constructor]. split; simpl.
    + now apply onDrop_newImages_four_keys.
    + exact Hev.
  - destruct (nth_error (ImageUpload.batches st) b) as [bt|] eqn:Hbt; [|discriminate].
    destruct (nth_error (ImageUpload.acceptedFiles bt) index) as [f|] eqn:Hf;
      [|discriminate].
    destruct (existsb _ _); [discriminate|].
    destruct (Forall_nth_error _ _ _ _ Hb Hbt) as [Hk Hlen].
    unfold ImageUpload.onDrop_onload.
    pose proof (onload_direction_ok _ _ _ _ Hk Hlen Hf) as Hd.
    pose proof (set_keeps_four_keys _ _ (Some (image_of f result)) Hk Hd) as Hk'.
    intros [= <- <-]. split.
    + repeat split; simpl; try assumption.
      apply Forall_replace_nth; [assumption|]. split; assumption.
    + destruct (allImagesUploaded _); repeat constructor. assumption.
  - unfold ImageUpload.removeImage. intros [= <- <-].
    assert (ImageUpload.four_keys
              (ImageUpload.removeImage_images dir (ImageUpload.images st)))
      by (now apply set_keeps_four_keys).
    split; [repeat split; assumption | repeat constructor; assumption].
  - unfold ImageUpload.handleIndividualUpload.
    destruct files as [|f files]; intros [= <- <-]; (split; [|constructor]).
    + repeat split; assumption.
    + repeat split; simpl; try assumption.
      apply Forall_app. split; [assumption|].
      constructor; [|constructor]. split; simpl; assumption.
  - destruct (nth_error (ImageUpload.readers st) r) as [rd|] eqn:Hrd; [|discriminate].
    destruct (Forall_nth_error _ _ _ _ Hr Hrd) as [Hk Hd].
    assert (ImageUpload.four_keys (ImageUpload.individual_onload rd result))
      by (now apply set_keeps_four_keys).
    intros [= <- <-]. split.
    + repeat split; simpl; try assumption. now apply Forall_remove_nth.
    + repeat constructor; assumption.
Qed.

(** C9, as stated, fails: one file dropped on the empty component fills
    [north] once decoded, and [onImagesUpload] is not called, because some
    slot is still empty. *)
Lemma incomplete_drop_is_silent :
  ImageUpload.run ImageUpload.initial
    [ImageUpload.Drop [sample_file "a.png"];
     ImageUpload.BatchLoad 0 0 "data:a"] =
  Some ({| ImageUpload.images :=
             [("north", Some (image_of (sample_file "a.png") "data:a"));
              ("south", None); ("east", None); ("west", None)];
           ImageUpload.batches :=
             [{| ImageUpload.newImages :=
                   [("north", Some (image_of (sample_file "a.png") "data:a"));
                    ("south", None); ("east", None); ("west", None)];
                 ImageUpload.acceptedFiles := [sample_file "a.png"];
                 ImageUpload.loaded := [0] |}];
           ImageUpload.readers := [] |}, []).
Proof. reflexivity. Qed.

(** What each event notifies. *)
Lemma step_notes (st st' : ImageUpload.Store) (ev : ImageUpload.Event)
    (notes : list UploadState) :
  ImageUpload.step st ev = Some (st', notes) ->
  match ev with
  | ImageUpload.Remove _ | ImageUpload.ReaderLoad _ _ =>
      notes = [ImageUpload.images st']
  | ImageUpload.BatchLoad _ _ _ =>
      notes = if allImagesUploaded (ImageUpload.images st')
              then [ImageUpload.images st'] else []
  | ImageUpload.Drop _ | ImageUpload.Pick _ _ =>
      notes = [] /\ ImageUpload.images st' = ImageUpload.images st
  end.
Proof.
  intros Hstep.
  destruct ev as [files|b index result|dir|dir files|r result];
    simpl in Hstep.
  - injection Hstep as <- <-. split; reflexivity.
  - destruct (nth_error (ImageUpload.batches st) b) as [bt|]; [|discriminate].
    destruct (nth_error (ImageUpload.acceptedFiles bt) index) as [f|];
      [|discriminate].
    destruct (existsb _ _); [discriminate|].
    unfold ImageUpload.onDrop_onload in Hstep.
    injection Hstep as <- <-. reflexivity.
  - injection Hstep as <- <-. reflexivity.
  - destruct files; injection Hstep as <- <-; split; reflexivity.
  - destruct (nth_error (ImageUpload.readers st) r) as [rd|]; [|discriminate].
    injection Hstep as <- <-. reflexivity.
Qed.

(** C9 (amended). [removeImage] and the reader of [handleIndividualUpload]
    always call [onImagesUpload]; a reader of [onDrop] calls it exactly
    when no slot is left empty afterwards; starting a drop or a slot upload
    changes no slot and calls nothing.  Every value passed is the whole
    state the component has just been set to, and it has exactly the four
    direction keys as long as the component is well formed, which drops of
    at most four files and the rendered slots keep. *)
Theorem notifications_are_whole_states (st st' : ImageUpload.Store)
    (ev : ImageUpload.Event) (notes : list UploadState) :
  ImageUpload.step st ev = Some (st', notes) ->
  (forall u, In u notes -> u = ImageUpload.images st') /\
  match ev with
  | ImageUpload.Remove _ | ImageUpload.ReaderLoad _ _ =>
      notes = [ImageUpload.images st']
  | ImageUpload.BatchLoad _ _ _ =>
      notes = if allImagesUploaded (ImageUpload.images st')
              then [ImageUpload.images st'] else []
  | ImageUpload.Drop _ | ImageUpload.Pick _ _ =>
      notes = [] /\ ImageUpload.images st' = ImageUpload.images st
  end /\
  (ImageUpload.well_formed st -> ImageUpload.event_ok ev ->
   ImageUpload.well_formed st' /\
   forall u, In u notes -> keys u = ImageUpload.directions).
Proof.
  intros Hstep. pose proof (step_notes _ _ _ _ Hstep) as Hn.
  split; [|split; [exact Hn|]].
  - destruct ev.
    + destruct Hn as [-> _]. intros u [].
    + subst notes. destruct (allImagesUploaded _); simpl; intuition.
    + subst notes. simpl. intuition.
    + destruct Hn as [-> _]. intros u [].
    + subst notes. simpl. intuition.
  - intros Hwf Hev.
    destruct (step_well_formed _ _ _ _ Hwf Hev Hstep) as [Hwf' Hk].
    split; [assumption|]. rewrite Forall_forall in Hk. exact Hk.
Qed.

Lemma well_formed_initial : ImageUpload.well_formed ImageUpload.initial.
Proof. repeat split; constructor. Qed.

Lemma notifications_are_whole_states_witness :
  let st' :=
    {| ImageUpload.images :=
         [("north", None); ("south", None); ("east", None); ("west", None)];
       ImageUpload.batches := []; ImageUpload.readers := [] |} in
  ImageUpload.step ImageUpload.initial (ImageUpload.Remove "east") =
    Some (st', [ImageUpload.images st']) /\
  ImageUpload.well_formed st' /\
  forall u, In u [ImageUpload.images st'] -> keys u = ImageUpload.directions.
Proof.
  intros st'. split; [reflexivity|].
  destruct (notifications_are_whole_states ImageUpload.initial st'
              (ImageUpload.Remove "east") [ImageUpload.images st'] eq_refl)
    as (_ & _ & H).
  apply H; [exact well_formed_initial | simpl; tauto].
Defined.

(** *** Uploads and the stored error *)

Lemma notify_keeps (notes : list UploadState) (s : App.State) :
  App.analysis (App.notify notes s) = App.analysis s /\
  App.loading (App.notify notes s) = App.loading s.
Proof.
  revert s. induction notes as [|u notes IH]; intros s; [split; reflexivity|].
  simpl. destruct (IH (App.handleImagesUpload u s)) as [-> ->].
  split; reflexivity.
Qed.

(** C8, as stated, fails.  In [failed_world] (four files uploaded, the
    request got no answer) four new files are dropped and the first of them
    is decoded: the upload state changes to [north] alone, no notification
    is made because three slots are empty, and the stored error stays. *)
Lemma silent_mutation_keeps_error :
  App.run App.initial (drop_four ++ [App.Click; App.Settle Api.NoAnswer]) =
    Some failed_world /\
  App.failed (App.app failed_world) /\
  option_map (fun w => (ImageUpload.images (App.upload w), App.app w))
    (App.run failed_world
       [App.Upload (ImageUpload.Drop [sample_file "1.png"; sample_file "2.png";
                                      sample_file "3.png"; sample_file "4.png"]);
        App.Upload (ImageUpload.BatchLoad 1 0 "data:1")]) =
  Some ([("north", Some (image_of (sample_file "1.png") "data:1"));
         ("south", None); ("east", None); ("west", None)],
        App.app failed_world).
Proof.
  split; [reflexivity|]. split; [|reflexivity].
  unfold App.failed. simpl. discriminate.
Qed.

(** C8 (amended). An event of the upload component never touches the stored
    analysis, the loading flag or the requests.  When it notifies the
    application ([removeImage], the reader of [handleIndividualUpload], a
    reader of [onDrop] that leaves no slot empty) the stored error is
    cleared, so the application is idle again unless a request is loading,
    and the application holds the new upload state.  A reader of [onDrop]
    that leaves a slot empty, and the start of a drop or of a slot upload,
    leave the application, its error included, exactly as it was. *)
Theorem upload_event_and_error (w w' : App.World) (ev : ImageUpload.Event) :
  App.step w (App.Upload ev) = Some w' ->
  App.analysis (App.app w') = App.analysis (App.app w) /\
  App.loading (App.app w') = App.loading (App.app w) /\
  App.posted w' = App.posted w /\
  App.pending w' = App.pending w /\
  let cleared :=
    App.error (App.app w') = None /\
    (App.loading (App.app w) = false -> App.idle (App.app w')) /\
    App.images (App.app w') = ImageUpload.images (App.upload w') in
  match ev with
  | ImageUpload.Remove _ | ImageUpload.ReaderLoad _ _ => cleared
  | ImageUpload.BatchLoad _ _ _ =>
      if allImagesUploaded (ImageUpload.images (App.upload w'))
      then cleared else App.app w' = App.app w
  | ImageUpload.Drop _ | ImageUpload.Pick _ _ => App.app w' = App.app w
  end.
Proof.
  simpl. destruct (ImageUpload.step (App.upload w) ev) as [[st' notes]|] eqn:Hstep;
    [|discriminate].
  intros [= <-]. simpl.
  destruct (notify_keeps notes (App.app w)) as [Ha Hl].
  repeat (split; [assumption || reflexivity|]).
  pose proof (step_notes _ _ _ _ Hstep) as Hn.
  unfold App.idle.
  destruct ev.
  - destruct Hn as [-> _]. reflexivity.
  - subst notes. destruct (allImagesUploaded (ImageUpload.images st')); simpl;
      repeat split; auto.
  - subst notes. simpl. repeat split; auto.
  - destruct Hn as [-> _]. reflexivity.
  - subst notes. simpl. repeat split; auto.
Qed.

Lemma upload_event_and_error_witness :
  exists w',
    App.step failed_world (App.Upload (ImageUpload.Remove "north")) = Some w' /\
    App.error (App.app w') = None /\
    App.idle (App.app w') /\
    App.analysis (App.app w') = App.analysis (App.app failed_world) /\
    App.images (App.app w') = ImageUpload.images (App.upload w').
Proof.
  eexists. split; [reflexivity|].
  destruct (upload_event_and_error failed_world _ (ImageUpload.Remove "north")
              eq_refl) as (Ha & _ & _ & _ & He & Hi & Hu).
  repeat split; try assumption; apply Hi; reflexivity.
Defined.

(** *** One request at a time *)

Lemma step_flag_counts w ev w' :
  App.flag_counts w -> App.step w ev = Some w' -> App.flag_counts w'.
Proof.
  unfold App.flag_counts. intros Hinv.
  destruct ev as [|outcome|e]; simpl.
  - intros [= <-]. unfold App.click_analyze, App.analyze_disabled.
    destruct (allImagesUploaded (App.images (App.app w))) eqn:Hall; simpl;
      [|assumption].
    destruct (App.loading (App.app w)) eqn:Hl; [now rewrite Hl|].
    unfold App.handleAnalyzeTraffic. rewrite Hall. simpl. now rewrite Hinv.
  - destruct (App.pending w) as [|n] eqn:Hp; [discriminate|].
    intros [= <-]. simpl.
    destruct (App.loading (App.app w)); [|discriminate].
    injection Hinv as ->.
    unfold App.settled.
    destruct (Api.analyzeTraffic_result outcome); reflexivity.
  - destruct (ImageUpload.step (App.upload w) e) as [[st' notes]|]; [|discriminate].
    intros [= <-]. simpl.
    destruct (notify_keeps notes (App.app w)) as [_ ->]. assumption.
Qed.

Lemma run_flag_counts evs :
  forall w w', App.flag_counts w -> App.run w evs = Some w' -> App.flag_counts w'.
Proof.
  induction evs as [|ev evs IH]; intros w w' Hinv; simpl.
  - now intros [= <-].
  - destruct (App.step w ev) as [w1|] eqn:Hstep; [|discriminate].
    apply IH. eapply step_flag_counts; eassumption.
Qed.

(** C3, as stated, fails: [handleAnalyzeTraffic] does not look at the
    loading flag.  Run on [requesting_world], where one request is in
    flight, it posts a second one and stores no error. *)
Lemma handler_has_no_reentrancy_guard :
  App.run App.initial (drop_four ++ [App.Click]) = Some requesting_world /\
  App.requesting (App.app requesting_world) /\
  App.pending requesting_world = 1 /\
  App.pending (App.handleAnalyzeTraffic requesting_world) = 2 /\
  length (App.posted (App.handleAnalyzeTraffic requesting_world)) = 2 /\
  App.error (App.app (App.handleAnalyzeTraffic requesting_world)) = None.
Proof. repeat split. Qed.

(** C3 (amended). In every state the application reaches through clicks
    on the analyze button, settlements and upload events, at most one
    request is in flight, and exactly one while loading.  While loading the
    button is disabled, so a click runs no handler: nothing is posted, the
    state is unchanged and no error is reported for the click. *)
Theorem one_request_in_flight (evs : list App.Event) (w : App.World) :
  App.run App.initial evs = Some w ->
  App.pending w <= 1 /\
  (App.requesting (App.app w) ->
     App.pending w = 1 /\ App.step w App.Click = Some w) /\
  (App.pending w = 1 -> App.requesting (App.app w)).
Proof.
  intros Hrun.
  assert (Hinv : App.flag_counts w).
  { eapply run_flag_counts; [|exact Hrun]. reflexivity. }
  unfold App.flag_counts, App.requesting in *.
  destruct (App.loading (App.app w)) eqn:Hl; rewrite Hinv.
  - repeat split; try lia.
    simpl. unfold App.click_analyze, App.analyze_disabled. rewrite Hl.
    now rewrite orb_true_r.
  - repeat split; try lia; discriminate.
Qed.

Lemma one_request_in_flight_witness :
  App.pending requesting_world <= 1 /\
  App.pending requesting_world = 1 /\
  App.step requesting_world App.Click = Some requesting_world.
Proof.
  destruct (one_request_in_flight (drop_four ++ [App.Click]) requesting_world
              eq_refl) as (Hle & Hreq & _).
  split; [exact Hle|]. apply Hreq. reflexivity.
Defined.

(** * Further properties of the code *)

(** ** Slots: removal and the per-slot upload *)

Lemma set_set_same {V} (o : obj V) k v v' : set k v (set k v' o) = set k v o.
Proof.
  induction o as [|[k0 v0] o IH]; simpl.
  - now rewrite String.eqb_refl.
  - destruct (k0 =? k) eqn:E; simpl.
    + now rewrite String.eqb_refl.
    + now rewrite E, IH.
Qed.

Lemma set_null_not_all_uploaded (o : UploadState) dir :
  allImagesUploaded (set dir None o) = false.
Proof.
  apply (empty_slot_not_all_uploaded _ dir). apply get_set_same.
Qed.

Lemma nth_error_middle {A} (l l' : list A) (x : A) :
  nth_error (l ++ x :: l') (length l) = Some x.
Proof. induction l; simpl; auto. Qed.

Lemma remove_nth_middle {A} (l l' : list A) (x : A) :
  ImageUpload.remove_nth (length l) (l ++ x :: l') = l ++ l'.
Proof. induction l; simpl; [reflexivity|]. now f_equal. Qed.

(** X1. [removeImage] touches one slot and can be repeated: after it the slot
    is [null], every other key reads as before, no key is added when the
    direction is a key already, and removing the same direction again gives
    the same state and the same notification once more. *)
Theorem removeImage_frame_idempotent (st : ImageUpload.Store) (dir : string) :
  let n := ImageUpload.removeImage_images dir (ImageUpload.images st) in
  get dir n = Some None /\
  (forall k, (dir =? k) = false -> get k n = get k (ImageUpload.images st)) /\
  (In dir (keys (ImageUpload.images st)) ->
     keys n = keys (ImageUpload.images st)) /\
  ImageUpload.run st [ImageUpload.Remove dir; ImageUpload.Remove dir] =
    Some (fst (ImageUpload.removeImage dir st), [n; n]).
Proof.
  intros n. subst n. unfold ImageUpload.removeImage_images.
  split; [apply get_set_same|].
  split; [intros k Hk; now apply get_set_other|].
  split; [apply keys_set_present|].
  simpl. unfold ImageUpload.removeImage_images. now rewrite set_set_same.
Qed.

(** X2. After [removeImage], for whatever direction and in whatever state, not
    all images are uploaded: the application receives the new state, the
    analyze button is disabled and a click on it changes nothing. *)
Theorem removeImage_disables_analysis (w : App.World) (dir : string) :
  exists w',
    App.step w (App.Upload (ImageUpload.Remove dir)) = Some w' /\
    allImagesUploaded (ImageUpload.images (App.upload w')) = false /\
    App.images (App.app w') = ImageUpload.images (App.upload w') /\
    App.analyze_disabled (App.app w') = true /\
    App.step w' App.Click = Some w' /\
    App.posted w' = App.posted w.
Proof.
  eexists. split; [reflexivity|]. simpl.
  unfold App.click_analyze, App.analyze_disabled. simpl.
  unfold ImageUpload.removeImage_images.
  rewrite set_null_not_all_uploaded. simpl. repeat split.
Qed.

Lemma pick_then_load (st : ImageUpload.Store) dir f rest result :
  ImageUpload.run st
    [ImageUpload.Pick dir (f :: rest);
     ImageUpload.ReaderLoad (length (ImageUpload.readers st)) result] =
  let n := set dir (Some (image_of f result)) (ImageUpload.images st) in
  Some ({| ImageUpload.images := n;
           ImageUpload.batches := ImageUpload.batches st;
           ImageUpload.readers := ImageUpload.readers st |}, [n]).
Proof.
  simpl. rewrite nth_error_middle.
  rewrite (remove_nth_middle (ImageUpload.readers st) []).
  now rewrite app_nil_r.
Qed.

(** X3. A per-slot upload whose reader fires before anything else happens:
    only the first selected file is used, slot [dir] holds it, every other
    key reads as before, no key is added when [dir] is a key already, and
    the one notification is the new state. *)
Theorem individual_upload_frame (st : ImageUpload.Store) (dir : string)
    (f : File.t) (rest : list File.t) (result : string) :
  exists st',
    ImageUpload.run st
      [ImageUpload.Pick dir (f :: rest);
       ImageUpload.ReaderLoad (length (ImageUpload.readers st)) result] =
      Some (st', [ImageUpload.images st']) /\
    get dir (ImageUpload.images st') =
      Some (Some {| file := f; preview := result;
                    name := File.name f; size := File.size f |}) /\
    (forall k, (dir =? k) = false ->
       get k (ImageUpload.images st') = get k (ImageUpload.images st)) /\
    (In dir (keys (ImageUpload.images st)) ->
       keys (ImageUpload.images st') = keys (ImageUpload.images st)) /\
    ImageUpload.batches st' = ImageUpload.batches st /\
    ImageUpload.readers st' = ImageUpload.readers st.
Proof.
  exists {| ImageUpload.images :=
             set dir (Some (image_of f result)) (ImageUpload.images st);
           ImageUpload.batches := ImageUpload.batches st;
           ImageUpload.readers := ImageUpload.readers st |}.
  split; [now rewrite pick_then_load|]. simpl.
  split; [apply get_set_same|].
  split; [intros k Hk; now apply get_set_other|].
  split; [apply keys_set_present|].
  split; reflexivity.
Qed.

(** X4. Two per-slot uploads started before either reader has fired: each
    reader writes over the state its handler saw, so when both have fired
    the state is the starting state with the second file alone; the first
    upload is lost, although it was notified in between. *)
Theorem overlapping_uploads_lose_the_first (st : ImageUpload.Store)
    (d1 d2 : string) (f g : File.t) (r1 r2 : string) :
  let n := length (ImageUpload.readers st) in
  let first := set d1 (Some (image_of f r1)) (ImageUpload.images st) in
  let second := set d2 (Some (image_of g r2)) (ImageUpload.images st) in
  ImageUpload.run st
    [ImageUpload.Pick d1 [f]; ImageUpload.Pick d2 [g];
     ImageUpload.ReaderLoad n r1; ImageUpload.ReaderLoad n r2] =
    Some ({| ImageUpload.images := second;
             ImageUpload.batches := ImageUpload.batches st;
             ImageUpload.readers := ImageUpload.readers st |},
          [first; second]) /\
  get d2 second =
    Some (Some {| file := g; preview := r2;
                  name := File.name g; size := File.size g |}) /\
  ((d2 =? d1) = false -> get d1 second = get d1 (ImageUpload.images st)).
Proof.
  intros n first second. split; [|split; [apply get_set_same|]].
  - subst n. simpl.
    rewrite <- app_assoc. simpl. rewrite nth_error_middle.
    rewrite remove_nth_middle. simpl. rewrite nth_error_middle.
    rewrite (remove_nth_middle (ImageUpload.readers st) []).
    now rewrite app_nil_r.
  - intros H. now apply get_set_other.
Qed.

Lemma run_pick_load imgs bs rs dir f rest result evs :
  ImageUpload.run
    {| ImageUpload.images := imgs; ImageUpload.batches := bs;
       ImageUpload.readers := rs |}
    (ImageUpload.Pick dir (f :: rest) ::
     ImageUpload.ReaderLoad (length rs) result :: evs) =
  match ImageUpload.run
          {| ImageUpload.images := set dir (Some (image_of f result)) imgs;
             ImageUpload.batches := bs; ImageUpload.readers := rs |} evs with
  | None => None
  | Some (st2, n2) =>
      Some (st2, set dir (Some (image_of f result)) imgs :: n2)
  end.
Proof.
  cbn [ImageUpload.run ImageUpload.step ImageUpload.handleIndividualUpload
       ImageUpload.readers ImageUpload.images ImageUpload.batches].
  rewrite nth_error_middle. rewrite (remove_nth_middle rs []). rewrite app_nil_r.
  unfold ImageUpload.individual_onload. simpl.
  destruct (ImageUpload.run _ evs) as [[st2 n2]|]; reflexivity.
Qed.

(** X5. The four slots filled one by one, each reader firing before the next
    file is picked, on a state that has the four direction keys: the final
    state is [{north: a, south: b, east: c, west: d}] whatever the slots
    held, the same state as after dropping [a; b; c; d] at once, and it is
    complete. *)
Theorem sequential_uploads_fill_all (st : ImageUpload.Store) (a b c d : File.t)
    (ra rb rc rd : string) :
  keys (ImageUpload.images st) = ImageUpload.directions ->
  let n := length (ImageUpload.readers st) in
  let one_by_one :=
    ImageUpload.run st
      [ImageUpload.Pick "north" [a]; ImageUpload.ReaderLoad n ra;
       ImageUpload.Pick "south" [b]; ImageUpload.ReaderLoad n rb;
       ImageUpload.Pick "east" [c]; ImageUpload.ReaderLoad n rc;
       ImageUpload.Pick "west" [d]; ImageUpload.ReaderLoad n rd] in
  let slot (f : File.t) (result : string) : ImageSlot :=
    Some {| file := f; preview := result;
            name := File.name f; size := File.size f |} in
  let final : UploadState :=
    [("north", slot a ra); ("south", slot b rb);
     ("east", slot c rc); ("west", slot d rd)] in
  option_map fst one_by_one =
    Some {| ImageUpload.images := final;
            ImageUpload.batches := ImageUpload.batches st;
            ImageUpload.readers := ImageUpload.readers st |} /\
  option_map (fun r => ImageUpload.images (fst r)) one_by_one =
    option_map (fun r => ImageUpload.images (fst r))
      (ImageUpload.assignBulk [a; b; c; d] [ra; rb; rc; rd] [0; 1; 2; 3] st) /\
  allImagesUploaded final = true.
Proof.
  intros Hk n one_by_one slot final. subst n one_by_one slot final.
  rewrite assignBulk_loads.
  destruct st as [imgs bs rs]. simpl in Hk.
  destruct (four_direction_keys _ Hk) as (vn & vs & ve & vw & ->).
  cbn [ImageUpload.readers ImageUpload.images ImageUpload.batches].
  rewrite !run_pick_load. repeat split.
Qed.

Lemma sequential_uploads_fill_all_witness :
  option_map fst
    (ImageUpload.run ImageUpload.initial
       [ImageUpload.Pick "north" [sample_file "n.png"];
        ImageUpload.ReaderLoad 0 "data:n";
        ImageUpload.Pick "south" [sample_file "s.png"];
        ImageUpload.ReaderLoad 0 "data:s";
        ImageUpload.Pick "east" [sample_file "e.png"];
        ImageUpload.ReaderLoad 0 "data:e";
        ImageUpload.Pick "west" [sample_file "w.png"];
        ImageUpload.ReaderLoad 0 "data:w"]) =
  Some {| ImageUpload.images := full_images;
          ImageUpload.batches := []; ImageUpload.readers := [] |}.
Proof.
  exact (proj1 (sequential_uploads_fill_all ImageUpload.initial
                  (sample_file "n.png") (sample_file "s.png")
                  (sample_file "e.png") (sample_file "w.png")
                  "data:n" "data:s" "data:e" "data:w" eq_refl)).
Defined.

(** ** Drops of other than four files *)



(** X7. A reader of a drop of other than four files on a complete four-key
    state: the file at index 0, 1, 2 or 3 overwrites north, south, east or
    west, by its position in the drop, and the application is notified of
    the new state. *)
Theorem onload_overwrites_by_position (files : list File.t) (index : nat)
    (f : File.t) (result : string) (o : UploadState) :
  keys o = ImageUpload.directions ->
  allImagesUploaded o = true ->
  length files <> 4 ->
  index < 4 ->
  exists d old,
    nth_error ImageUpload.directions index = Some d /\
    get d o = Some (Some old) /\
    ImageUpload.onDrop_onload files index f result o =
      (set d (Some (image_of f result)) o,
       [set d (Some (image_of f result)) o]) /\
    keys (set d (Some (image_of f result)) o) = keys o.
Proof.
  intros Hk Hall Hlen Hi. apply Nat.eqb_neq in Hlen.
  destruct (four_direction_keys _ Hk) as (n & s & e & w & ->).
  destruct n as [n|]; [|discriminate Hall].
  destruct s as [s|]; [|discriminate Hall].
  destruct e as [e|]; [|discriminate Hall].
  destruct w as [w|]; [|discriminate Hall].
  unfold ImageUpload.onDrop_onload, ImageUpload.onload_direction.
  rewrite Hlen.
  destruct index as [|[|[|[|index]]]]; [| | | |lia].
  - exists "north", n. repeat split.
  - exists "south", s. repeat split.
  - exists "east", e. repeat split.
  - exists "west", w. repeat split.
Qed.

Lemma onload_overwrites_by_position_witness :
  ImageUpload.onDrop_onload [sample_file "x.png"] 0 (sample_file "x.png")
    "data:x" full_images =
  (set "north" (Some (image_of (sample_file "x.png") "data:x")) full_images,
   [set "north" (Some (image_of (sample_file "x.png") "data:x")) full_images]).
Proof.
  destruct (onload_overwrites_by_position [sample_file "x.png"] 0
              (sample_file "x.png") "data:x" full_images eq_refl eq_refl)
    as (d & old & Hd & _ & H & _).
  - discriminate.
  - lia.
  - injection Hd as <-. exact H.
Defined.

(** ** The upload count and the request form *)

(** X8. The number shown as uploaded never exceeds the number of slots, and
    the state is complete exactly when the two are equal (4 of 4 on a state
    with the four direction keys). *)
Theorem uploaded_count_complete (o : UploadState) :
  ImageUpload.uploaded_count o <= length (keys o) /\
  (allImagesUploaded o = true <->
   ImageUpload.uploaded_count o = length (keys o)) /\
  (keys o = ImageUpload.directions ->
   (allImagesUploaded o = true <-> ImageUpload.uploaded_count o = 4)).
Proof.
  assert (H : ImageUpload.uploaded_count o <= length (keys o) /\
              (allImagesUploaded o = true <->
               ImageUpload.uploaded_count o = length (keys o))).
  { unfold ImageUpload.uploaded_count, allImagesUploaded, keys, values.
    induction o as [|[k v] o [IHle IH]]; simpl; [split; [lia|tauto]|].
    destruct (not_null v); simpl.
    - split; [lia|]. rewrite IH. split; lia.
    - split; [lia|]. split; [discriminate|lia]. }
  destruct H as [Hle Hiff]. repeat split; try assumption; try apply Hiff.
  - intros Hall. rewrite H in *. now apply Hiff.
  - intros Hc. apply Hiff. now rewrite H.
Qed.

(** X9. The form built by [analyzeTraffic] has one field per filled slot, named
    by the slot's key and holding the slot's file; empty slots are left out,
    so the number of fields is the number of uploaded images, and for a
    complete state the field names are the keys of the state in order. *)
Theorem formData_fields (o : UploadState) :
  (forall k fl, In (k, fl) (Api.formData_of o) <->
     exists img, In (k, Some img) o /\ file img = fl) /\
  length (Api.formData_of o) = ImageUpload.uploaded_count o /\
  (allImagesUploaded o = true -> map fst (Api.formData_of o) = keys o).
Proof.
  unfold Api.formData_of, ImageUpload.uploaded_count, allImagesUploaded,
    entries, keys, values.
  induction o as [|[k0 [img0|]] o (IHin & IHlen & IHk)]; simpl.
  - repeat split; try tauto. intros (img & [] & _).
  - split; [|split].
    + intros k fl. rewrite IHin. split.
      * intros [[= <- <-] | (img & Hin & Hf)].
        -- exists img0. auto.
        -- exists img. auto.
      * intros (img & [[= <- <-] | Hin] & Hf).
        -- left. now subst.
        -- right. exists img. auto.
    + now rewrite IHlen.
    + intros H. now rewrite IHk.
  - split; [|split].
    + intros k fl. rewrite IHin. split.
      * intros (img & Hin & Hf). exists img. auto.
      * intros (img & [[=] | Hin] & Hf). exists img. auto.
    + exact IHlen.
    + discriminate.
Qed.

(** ** The request lifecycle, continued *)

(** X10. The message of the error thrown for an answer outside 200..299,
    for an [error] field of any kind, and what the application stores for
    it.  The message is empty exactly when the field is truthy and converts
    to the empty string (an empty array, for instance): only then is the
    fallback text of [handleAnalyzeTraffic] stored.  In every other case
    the stored error is the message itself.  When the field is absent or a
    string the message is never empty: it is the field when that is not
    empty and the text built from the status otherwise, and this is the
    error the application stores. *)
Theorem fallback_only_for_empty_conversion (field : option Api.Value)
    (st : N) :
  let m := Api.thrown_message field st in
  (m = "" <->
   exists v, field = Some v /\ Api.truthy v = true /\ Api.text v = "") /\
  (m = "" -> App.caught_message m = App.analysis_failed_message) /\
  (m <> "" -> App.caught_message m = m) /\
  (forall e : option string, field = option_map Api.of_string e ->
     m <> "" /\ App.caught_message m = m /\
     m = Api.or_else e (Api.server_error st)) /\
  (forall (r : Api.Response) (s : App.State),
     Api.is_2xx (Api.status r) = false ->
     App.error (App.settled (Api.Answer r) s) =
       Some (App.caught_message
               (Api.thrown_message
                  (option_map Api.of_string
                     (match Api.data r with
                      | Some d => Api.error d
                      | None => None
                      end))
                  (Api.status r)))).
Proof.
  intros m.
  assert (Hcaught : forall x, x <> "" -> App.caught_message x = x).
  { intros x Hx. unfold App.caught_message. simpl.
    destruct (x =? "") eqn:E; [apply String.eqb_eq in E; contradiction|].
    reflexivity. }
  assert (Hstr : forall (e : option string) (st' : N),
            Api.thrown_message (option_map Api.of_string e) st' =
            Api.or_else e (Api.server_error st')).
  { intros [e|] st'; [|reflexivity]. simpl.
    destruct (e =? ""); reflexivity. }
  assert (Hne : forall e : option string,
            Api.or_else e (Api.server_error st) <> "").
  { intros [e|]; simpl; [|discriminate].
    destruct (e =? "") eqn:E; [discriminate|].
    intros ->. discriminate. }
  split; [|split; [|split; [|split]]].
  - subst m. unfold Api.thrown_message. split.
    + destruct field as [v|]; [|discriminate].
      destruct (Api.truthy v) eqn:T; [|discriminate].
      intros H. now exists v.
    + intros (v & -> & T & H). now rewrite T.
  - intros ->. reflexivity.
  - apply Hcaught.
  - intros e ->. subst m. rewrite Hstr.
    split; [apply Hne|]. split; [apply Hcaught; apply Hne | reflexivity].
  - intros r s H2. rewrite (settled_rejected r s H2). simpl.
    now rewrite Hstr.
Qed.

(** X11. A click on the analyze button does one of two things: nothing at all
    (the button is disabled), or, with every image uploaded and no request
    loading, it posts exactly one request built from the application's
    images, sets loading and clears the error.  The validation branch of
    [handleAnalyzeTraffic] is never reached from the button. *)
Theorem click_posts_or_does_nothing (w : App.World) :
  (App.analyze_disabled (App.app w) = true /\ App.click_analyze w = w) \/
  (allImagesUploaded (App.images (App.app w)) = true /\
   App.loading (App.app w) = false /\
   App.click_analyze w =
     {| App.app := {| App.images := App.images (App.app w);
                      App.analysis := App.analysis (App.app w);
                      App.loading := true; App.error := None |};
        App.upload := App.upload w;
        App.posted := App.posted w ++ [Api.formData_of (App.images (App.app w))];
        App.pending := S (App.pending w) |}).
Proof.
  unfold App.click_analyze, App.analyze_disabled, App.handleAnalyzeTraffic.
  destruct (allImagesUploaded (App.images (App.app w))); simpl; [|now left].
  destruct (App.loading (App.app w)); [now left|].
  right. repeat split.
Qed.

(** *** Invariants of the running application *)

Section RunInvariant.
Variable P : App.World -> Prop.
Hypothesis P_step : forall w ev w', P w -> App.step w ev = Some w' -> P w'.

Lemma run_invariant evs :
  forall w w', P w -> App.run w evs = Some w' -> P w'.
Proof.
  induction evs as [|ev evs IH]; intros w w' Hw; simpl.
  - now intros [= <-].
  - destruct (App.step w ev) as [w1|] eqn:Hstep; [|discriminate].
    apply IH. eapply P_step; eassumption.
Qed.

End RunInvariant.

Lemma notify_error (notes : list UploadState) (s : App.State) :
  App.error (App.notify notes s) =
  match notes with [] => App.error s | _ => None end.
Proof.
  revert s. induction notes as [|u notes IH]; intros s; [reflexivity|].
  simpl. rewrite IH. destruct notes; reflexivity.
Qed.

Lemma step_loading_without_error w ev w' :
  App.loading_without_error w -> App.step w ev = Some w' ->
  App.loading_without_error w'.
Proof.
  unfold App.loading_without_error. intros Hinv.
  destruct ev as [|outcome|e]; simpl.
  - intros [= <-]. unfold App.click_analyze, App.analyze_disabled,
      App.handleAnalyzeTraffic.
    destruct (allImagesUploaded (App.images (App.app w))); simpl;
      [|assumption].
    destruct (App.loading (App.app w)) eqn:Hl; [now rewrite Hl | reflexivity].
  - destruct (App.pending w); [discriminate|]. intros [= <-]. simpl.
    unfold App.settled. destruct (Api.analyzeTraffic_result outcome); discriminate.
  - destruct (ImageUpload.step (App.upload w) e) as [[st' notes]|]; [|discriminate].
    intros [= <-]. simpl. rewrite notify_error.
    destruct (notify_keeps notes (App.app w)) as [_ ->].
    destruct notes; [assumption | reflexivity].
Qed.

(** X12. In every state the application reaches, no error is stored while a
    request is loading.  So when a request settles with a status in
    200..299 the application ends with the body as its analysis, no error,
    not loading, and no request left in flight. *)
Theorem success_leaves_no_error (evs : list App.Event) (w w' : App.World)
    (r : Api.Response) :
  App.run App.initial evs = Some w ->
  App.step w (App.Settle (Api.Answer r)) = Some w' ->
  Api.is_2xx (Api.status r) = true ->
  App.loading_without_error w /\
  App.error (App.app w') = None /\
  App.analysis (App.app w') = Api.data r /\
  App.loading (App.app w') = false /\
  App.images (App.app w') = App.images (App.app w) /\
  App.pending w' = 0.
Proof.
  intros Hrun Hstep H2.
  assert (Hinv : App.loading_without_error w).
  { apply (run_invariant _ step_loading_without_error evs App.initial);
      [discriminate | exact Hrun]. }
  assert (Hflag : App.flag_counts w).
  { eapply run_flag_counts; [|exact Hrun]. reflexivity. }
  split; [exact Hinv|].
  simpl in Hstep. unfold App.flag_counts in Hflag.
  destruct (App.pending w) as [|n] eqn:Hp; [discriminate|].
  destruct (App.loading (App.app w)) eqn:Hl; [|discriminate].
  injection Hflag as ->. injection Hstep as <-. simpl.
  unfold App.settled, Api.analyzeTraffic_result, Api.axios_post.
  rewrite H2. simpl. repeat split. apply Hinv. exact Hl.
Qed.

Lemma success_leaves_no_error_witness :
  let w' :=
    {| App.app := App.settled
         (Api.Answer {| Api.status := 200; Api.data := Some sample_body |})
         (App.app requesting_world);
       App.upload := full_store;
       App.posted := [Api.formData_of full_images];
       App.pending := 0 |} in
  App.loading_without_error requesting_world /\
  App.error (App.app w') = None /\
  App.analysis (App.app w') = Some sample_body /\
  App.loading (App.app w') = false /\
  App.images (App.app w') = full_images /\
  App.pending w' = 0.
Proof.
  exact (success_leaves_no_error (drop_four ++ [App.Click]) requesting_world _
           {| Api.status := 200; Api.data := Some sample_body |}
           eq_refl eq_refl eq_refl).
Defined.

Lemma step_in_sync w ev w' :
  App.in_sync w -> App.step w ev = Some w' -> App.in_sync w'.
Proof.
  unfold App.in_sync. intros Hinv.
  destruct ev as [|outcome|e]; simpl.
  - intros [= <-]. unfold App.click_analyze, App.handleAnalyzeTraffic.
    destruct (App.analyze_disabled (App.app w)); [assumption|].
    destruct (negb (allImagesUploaded (App.images (App.app w)))); assumption.
  - destruct (App.pending w); [discriminate|]. intros [= <-]. simpl.
    unfold App.settled. destruct (Api.analyzeTraffic_result outcome); assumption.
  - destruct (ImageUpload.step (App.upload w) e) as [[st' notes]|] eqn:Hstep;
      [|discriminate].
    intros [= <-]. simpl. pose proof (step_notes _ _ _ _ Hstep) as Hn.
    destruct e.
    + destruct Hn as [-> ->]. assumption.
    + subst notes. intros Hall. rewrite Hall. reflexivity.
    + subst notes. reflexivity.
    + destruct Hn as [-> ->]. assumption.
    + subst notes. reflexivity.
Qed.

(** X13. In every state the application reaches, whenever the upload component
    shows all images uploaded the application holds exactly those images;
    so, unless a request is loading, the analyze button is enabled and a
    click posts the files that are displayed. *)
Theorem complete_upload_is_what_gets_posted (evs : list App.Event)
    (w : App.World) :
  App.run App.initial evs = Some w ->
  allImagesUploaded (ImageUpload.images (App.upload w)) = true ->
  App.images (App.app w) = ImageUpload.images (App.upload w) /\
  App.analyze_disabled (App.app w) = App.loading (App.app w) /\
  (App.loading (App.app w) = false ->
   App.posted (App.click_analyze w) =
     App.posted w ++ [Api.formData_of (ImageUpload.images (App.upload w))]).
Proof.
  intros Hrun Hall.
  assert (Hsync : App.in_sync w).
  { apply (run_invariant _ step_in_sync evs App.initial); [|exact Hrun].
    intros H. discriminate H. }
  specialize (Hsync Hall).
  unfold App.click_analyze, App.analyze_disabled, App.handleAnalyzeTraffic.
  rewrite Hsync, Hall. simpl. repeat split.
  intros ->. reflexivity.
Qed.

Lemma complete_upload_is_what_gets_posted_witness :
  App.images (App.app failed_world) = full_images /\
  App.analyze_disabled (App.app failed_world) = false /\
  App.posted (App.click_analyze failed_world) =
    [Api.formData_of full_images; Api.formData_of full_images].
Proof.
  destruct (complete_upload_is_what_gets_posted
              (drop_four ++ [App.Click; App.Settle Api.NoAnswer]) failed_world
              eq_refl eq_refl) as (Hi & Hd & Hp).
  split; [exact Hi|]. split; [exact Hd|]. apply Hp. reflexivity.
Defined.

(** *** Keys are never deleted *)

Lemma keys_set_incl {V} (o : obj V) k v : incl (keys o) (keys (set k v o)).
Proof.
  unfold keys. induction o as [|[k0 v0] o IH]; simpl; [intros x []|].
  destruct (k0 =? k) eqn:E; simpl.
  - apply String.eqb_eq in E. subst. apply incl_refl.
  - intros x [<- | Hx]; [now left | right; now apply IH].
Qed.

Lemma set_has_directions (o : UploadState) k v :
  ImageUpload.has_directions o -> ImageUpload.has_directions (set k v o).
Proof.
  unfold ImageUpload.has_directions. intros H.
  eapply incl_tran; [exact H | apply keys_set_incl].
Qed.

Lemma onDrop_newImages_has_directions (o : UploadState) files :
  ImageUpload.has_directions o ->
  ImageUpload.has_directions (ImageUpload.onDrop_newImages o files).
Proof.
  intros H. unfold ImageUpload.onDrop_newImages.
  destruct (Nat.eqb (length files) 4); [|assumption].
  simpl. now repeat apply set_has_directions.
Qed.

Lemma step_has_directions st ev st' notes :
  ImageUpload.store_has_directions st ->
  ImageUpload.step st ev = Some (st', notes) ->
  ImageUpload.store_has_directions st' /\
  Forall ImageUpload.has_directions notes.
Proof.
  intros (Hi & Hb & Hr).
  destruct ev as [files|b index result|dir|dir files|r result]; simpl.
  - intros [= <- <-]. split; [|constructor].
    repeat split; simpl; try assumption.
    apply Forall_app. split; [assumption|].
    constructor; [|constructor]. simpl.
    now apply onDrop_newImages_has_directions.
  - destruct (nth_error (ImageUpload.batches st) b) as [bt|] eqn:Hbt; [|discriminate].
    destruct (nth_error (ImageUpload.acceptedFiles bt) index) as [f|];
      [|discriminate].
    destruct (existsb _ _); [discriminate|].
    pose proof (Forall_nth_error _ _ _ _ Hb Hbt) as Hk. simpl in Hk.
    unfold ImageUpload.onDrop_onload.
    pose proof (set_has_directions _
      (ImageUpload.onload_direction (ImageUpload.acceptedFiles bt) index
         (ImageUpload.newImages bt))
      (Some (image_of f result)) Hk) as Hk'.
    intros [= <- <-]. split.
    + repeat split; simpl; try assumption.
      apply Forall_replace_nth; assumption.
    + destruct (allImagesUploaded _); repeat constructor. assumption.
  - unfold ImageUpload.removeImage, ImageUpload.removeImage_images.
    intros [= <- <-].
    pose proof (set_has_directions _ dir None Hi).
    split; [repeat split; assumption | repeat constructor; assumption].
  - unfold ImageUpload.handleIndividualUpload.
    destruct files as [|f files]; intros [= <- <-]; (split; [|constructor]).
    + repeat split; assumption.
    + repeat split; simpl; try assumption.
      apply Forall_app. split; [assumption|].
      constructor; [|constructor]. simpl. assumption.
  - destruct (nth_error (ImageUpload.readers st) r) as [rd|] eqn:Hrd; [|discriminate].
    pose proof (Forall_nth_error _ _ _ _ Hr Hrd) as Hk. simpl in Hk.
    pose proof (set_has_directions _ (ImageUpload.direction rd)
      (Some (image_of (ImageUpload.picked rd) result)) Hk).
    intros [= <- <-]. split.
    + repeat split; simpl; try assumption. now apply Forall_remove_nth.
    + repeat constructor; assumption.
Qed.

Lemma formData_names (o : UploadState) :
  allImagesUploaded o = true -> map fst (Api.formData_of o) = keys o.
Proof.
  unfold Api.formData_of, allImagesUploaded, entries, keys, values.
  induction o as [|[k [img|]] o IH]; simpl; try discriminate; [reflexivity|].
  intros H. now rewrite IH.
Qed.

Lemma notify_has_directions notes s :
  Forall ImageUpload.has_directions notes ->
  ImageUpload.has_directions (App.images s) ->
  ImageUpload.has_directions (App.images (App.notify notes s)).
Proof.
  intros Hn. revert s. induction Hn as [|u notes Hu Hn IH]; intros s Hs;
    [assumption|].
  simpl. apply IH. exact Hu.
Qed.

Lemma step_directions_kept w ev w' :
  App.directions_kept w -> App.step w ev = Some w' -> App.directions_kept w'.
Proof.
  intros (Hi & Hu & Hp).
  destruct ev as [|outcome|e]; simpl.
  - intros [= <-]. unfold App.click_analyze, App.handleAnalyzeTraffic.
    destruct (App.analyze_disabled (App.app w));
      [split; [exact Hi | split; [exact Hu | exact Hp]]|].
    destruct (allImagesUploaded (App.images (App.app w))) eqn:Hall; simpl;
      [|split; [exact Hi | split; [exact Hu | exact Hp]]].
    split; [exact Hi | split; [exact Hu |]]. simpl.
    apply Forall_app. split; [assumption|].
    constructor; [|constructor]. rewrite formData_names by assumption.
    exact Hi.
  - destruct (App.pending w); [discriminate|]. intros [= <-].
    split; [|split; [exact Hu | exact Hp]]. simpl.
    unfold App.settled. destruct (Api.analyzeTraffic_result outcome); exact Hi.
  - destruct (ImageUpload.step (App.upload w) e) as [[st' notes]|] eqn:Hstep;
      [|discriminate].
    intros [= <-].
    destruct (step_has_directions _ _ _ _ Hu Hstep) as [Hu' Hn].
    split; [|split; [exact Hu' | exact Hp]]. simpl.
    now apply notify_has_directions.
Qed.

(** X14. Every request the application ever posts carries a file for each of
    north, south, east and west: keys are never deleted from the upload
    state, and a request is only posted from a state without empty
    slots. *)
Theorem every_request_has_four_files (evs : list App.Event) (w : App.World) :
  App.run App.initial evs = Some w ->
  forall form, In form (App.posted w) ->
  forall d, In d ImageUpload.directions -> exists fl, In (d, fl) form.
Proof.
  intros Hrun form Hform d Hd.
  assert (Hinv : App.directions_kept w).
  { apply (run_invariant _ step_directions_kept evs App.initial); [|exact Hrun].
    split; [apply incl_refl|].
    split; [split; [apply incl_refl | split; constructor] | constructor]. }
  destruct Hinv as (_ & _ & Hp). rewrite Forall_forall in Hp.
  specialize (Hp _ Hform d Hd). apply in_map_iff in Hp as ([d' fl] & <- & Hin).
  now exists fl.
Qed.

Lemma every_request_has_four_files_witness :
  exists fl, In ("west", fl) (Api.formData_of full_images).
Proof.
  apply (every_request_has_four_files (drop_four ++ [App.Click])
           requesting_world eq_refl (Api.formData_of full_images)).
  - simpl. tauto.
  - simpl. tauto.
Defined.

(** ** Labels, colours and lights *)

Lemma toUpperCase_app (a b : string) :
  JsString.toUpperCase (a ++ b) =
  (JsString.toUpperCase a ++ JsString.toUpperCase b)%string.
Proof. induction a as [|c a IH]; simpl; [reflexivity|]. now rewrite IH. Qed.

Lemma upper_char_underscore (c : ascii) :
  Ascii.eqb (JsString.upper_char c) "_" = Ascii.eqb c "_".
Proof.
  destruct c as [b0 b1 b2 b3 b4 b5 b6 b7].
  destruct b0, b1, b2, b3, b4, b5, b6, b7; reflexivity.
Qed.

Lemma occurs_toUpperCase (s : string) :
  JsString.occurs "_" (JsString.toUpperCase s) = JsString.occurs "_" s.
Proof.
  induction s as [|c s IH]; simpl; [reflexivity|].
  now rewrite upper_char_underscore, IH.
Qed.

Lemma replace_char_absent (s : string) :
  JsString.occurs "_" s = false -> JsString.replace_char "_" " " s = s.
Proof.
  induction s as [|c s IH]; simpl; [reflexivity|].
  destruct (Ascii.eqb c "_"); simpl; [discriminate|].
  intros H. now rewrite IH.
Qed.

Lemma replace_char_first (p q : string) :
  JsString.occurs "_" p = false ->
  JsString.replace_char "_" " " (p ++ String "_" q) = (p ++ String " " q)%string.
Proof.
  induction p as [|c p IH]; simpl; [reflexivity|].
  destruct (Ascii.eqb c "_"); simpl; [discriminate|].
  intros H. now rewrite IH.
Qed.

(** X15. [getDensityDisplay], and [getDensityText] of the traffic light, which
    is the same function, on ASCII text: only the first underscore becomes
    a space.  For [p] without underscore, the label of [p_q] is [P Q] in
    capitals, where an underscore of [q] stays an underscore, and the label
    of [p] is [p] in capitals. *)
Theorem getDensityDisplay_first_underscore (p q : string) :
  JsString.is_ascii p = true -> JsString.is_ascii q = true ->
  JsString.occurs "_" p = false ->
  AnalysisResults.getDensityDisplay (p ++ String "_" q) =
    (JsString.toUpperCase p ++ String " " (JsString.toUpperCase q))%string /\
  JsString.occurs "_" (AnalysisResults.getDensityDisplay (p ++ String "_" q)) =
    JsString.occurs "_" q /\
  AnalysisResults.getDensityDisplay p = JsString.toUpperCase p /\
  TrafficLight.getDensityText (p ++ String "_" q) =
    AnalysisResults.getDensityDisplay (p ++ String "_" q).
Proof.
  intros _ _ Hp. unfold AnalysisResults.getDensityDisplay.
  rewrite (replace_char_first p q Hp), (replace_char_absent p Hp).
  rewrite toUpperCase_app. simpl.
  repeat split.
  - rewrite <- (occurs_toUpperCase q).
    generalize (JsString.toUpperCase q). intros q'.
    assert (Hp' : JsString.occurs "_" (JsString.toUpperCase p) = false)
      by now rewrite occurs_toUpperCase.
    revert Hp'. generalize (JsString.toUpperCase p). intros p'.
    induction p' as [|c p' IH]; simpl; [reflexivity|].
    destruct (Ascii.eqb c "_"); simpl; [discriminate|]. exact IH.
  - unfold TrafficLight.getDensityText.
    now rewrite (replace_char_first p q Hp), toUpperCase_app.
Qed.

Lemma getDensityDisplay_first_underscore_witness :
  AnalysisResults.getDensityDisplay "very_high_load" = "VERY HIGH_LOAD" /\
  JsString.occurs "_" (AnalysisResults.getDensityDisplay "very_high_load") = true.
Proof.
  destruct (getDensityDisplay_first_underscore "very" "high_load"
              eq_refl eq_refl eq_refl) as (H1 & H2 & _).
  split; [exact H1 | exact H2].
Defined.

(** X16. Every level of [DENSITY_LEVELS] has a background colour and a text
    colour, the two differ, and its label has no underscore left: the level
    in capitals with a space for its underscore. *)
Theorem density_levels_are_styled :
  Forall (fun level =>
    exists bg fg,
      get level Constants.DENSITY_COLORS = Some bg /\
      get level Constants.DENSITY_TEXT_COLORS = Some fg /\
      bg <> fg /\
      TrafficLight.getDensityColor (Some level) = Some bg /\
      JsString.occurs "_" (AnalysisResults.getDensityDisplay level) = false /\
      JsString.is_ascii level = true)
    (values Constants.DENSITY_LEVELS) /\
  map AnalysisResults.getDensityDisplay (values Constants.DENSITY_LEVELS) =
    ["VERY LOW"; "LOW"; "MEDIUM"; "HIGH"; "VERY HIGH"] /\
  keys Constants.DENSITY_COLORS = values Constants.DENSITY_LEVELS /\
  keys Constants.DENSITY_TEXT_COLORS = values Constants.DENSITY_LEVELS.
Proof.
  split; [|repeat split].
  repeat constructor;
    (eexists; eexists;
     split; [reflexivity|]; split; [reflexivity|]; split; [discriminate|];
     repeat split).
Qed.

(** X17. [getDensityColor] yields one of the colours of [DENSITY_COLORS] for
    every density that is not a name inherited from [Object.prototype]: the
    colour of the density when the table has it, and the colour of
    [very_low] for any other density, [undefined] included. *)
Theorem getDensityColor_total (density : option string) :
  inherited (to_key density) = false ->
  exists c,
    TrafficLight.getDensityColor density = Some c /\
    In c (values Constants.DENSITY_COLORS) /\
    (forall c', get (to_key density) Constants.DENSITY_COLORS = Some c' ->
                c = c') /\
    (get (to_key density) Constants.DENSITY_COLORS = None -> c = "#d4edda").
Proof.
  intros _. unfold TrafficLight.getDensityColor.
  destruct (get (to_key density) Constants.DENSITY_COLORS) as [c|] eqn:Hc.
  - pose proof (get_In_values _ _ _ Hc) as Hin. simpl in Hin.
    exists c. destruct Hin as [<-|[<-|[<-|[<-|[<-|[]]]]]]; simpl;
      (split; [reflexivity|]); (split; [tauto|]);
      (split; [intros c' [= <-]; reflexivity | discriminate]).
  - exists "#d4edda". simpl.
    split; [reflexivity|]. split; [tauto|].
    split; [discriminate | reflexivity].
Qed.

Lemma getDensityColor_total_witness :
  exists c,
    TrafficLight.getDensityColor None = Some c /\
    In c (values Constants.DENSITY_COLORS) /\
    (forall c', get "undefined" Constants.DENSITY_COLORS = Some c' -> c = c') /\
    (get "undefined" Constants.DENSITY_COLORS = None -> c = "#d4edda").
Proof.
  exact (getDensityColor_total None eq_refl).
Defined.

(** X18. A traffic light that renders shows at most one active lamp, and
    exactly one when the state is ['red'], ['yellow'] or ['green']; for any
    other state all three lamps are off.  The green lamp is on exactly for
    ['green']. *)
Theorem one_lamp_at_most (direction state : option string)
    (vehicleCount : option Z) (density : option string)
    (view : TrafficLight.View) :
  TrafficLight.TrafficLight direction state vehicleCount density =
    TrafficLight.Ok view ->
  let lamps := [TrafficLight.red_active view; TrafficLight.yellow_active view;
                TrafficLight.green_active view] in
  exists s,
    state = Some s /\
    length (filter (fun on => on) lamps) =
      (if existsb (String.eqb s) (values Constants.SIGNAL_STATES)
       then 1 else 0) /\
    TrafficLight.green_active view = (s =? "green").
Proof.
  unfold TrafficLight.TrafficLight.
  destruct direction as [dir|]; [|discriminate].
  destruct density as [d|]; [|discriminate].
  destruct state as [s|]; [|discriminate].
  intros [= <-]. exists s. simpl.
  split; [reflexivity|]. split; [|reflexivity].
  rewrite (String.eqb_sym s "red"), (String.eqb_sym s "yellow"),
    (String.eqb_sym s "green").
  destruct ("red" =? s) eqn:Er.
  - apply String.eqb_eq in Er. subst s. reflexivity.
  - destruct ("yellow" =? s) eqn:Ey.
    + apply String.eqb_eq in Ey. subst s. reflexivity.
    + destruct ("green" =? s); reflexivity.
Qed.

Lemma one_lamp_at_most_witness :
  exists s,
    Some "green" = Some s /\
    length (filter (fun on => on) [false; false; true]) =
      (if existsb (String.eqb s) (values Constants.SIGNAL_STATES)
       then 1 else 0) /\
    true = (s =? "green").
Proof.
  exact (one_lamp_at_most (Some "north") (Some "green") (Some 12%Z)
           (Some "very_high") _ eq_refl).
Defined.

(** ** The intersection view *)

Lemma all_rendered_TypeError {A} (l : list (TrafficLight.rendered A)) :
  In TrafficLight.TypeError l ->
  TrafficIntersection.all_rendered l = TrafficLight.TypeError.
Proof.
  induction l as [|[a|] l IH]; simpl; [tauto| |reflexivity].
  intros [H|H]; [discriminate|]. now rewrite IH.
Qed.

Lemma light_of_direction (analysis : Api.Data) (NAME d : string) :
  get NAME Constants.DIRECTIONS = Some d ->
  TrafficIntersection.light analysis NAME =
  match get d (Api.traffic_density analysis),
        get d (Api.signal_states analysis) with
  | Some density, Some state =>
      TrafficLight.TrafficLight (Some d) (Some state)
        (get d (Api.vehicle_counts analysis)) (Some density)
  | _, _ => TrafficLight.TypeError
  end.
Proof.
  intros H. unfold TrafficIntersection.light. rewrite H. simpl.
  destruct (get d (Api.traffic_density analysis));
    destruct (get d (Api.signal_states analysis)); reflexivity.
Qed.

(** X19. Whenever the intersection view renders, it has four lights, for
    north, south, east and west in that order, and the light of a direction
    is the [TrafficLight] of that direction's own signal state, vehicle
    count and density: the analysis has a state and a density for each of
    the four directions, and no light shows the data of another
    direction. *)
Theorem intersection_lights_are_wired (analysis : Api.Data)
    (views : list TrafficLight.View) :
  TrafficIntersection.TrafficIntersection analysis = TrafficLight.Ok views ->
  Forall2
    (fun d view =>
       exists state density,
         get d (Api.signal_states analysis) = Some state /\
         get d (Api.traffic_density analysis) = Some density /\
         TrafficLight.TrafficLight (Some d) (Some state)
           (get d (Api.vehicle_counts analysis)) (Some density) =
           TrafficLight.Ok view)
    ImageUpload.directions views /\
  map TrafficLight.direction_title views = ["NORTH"; "SOUTH"; "EAST"; "WEST"] /\
  map TrafficLight.vehicle_count views =
    map (fun d => get d (Api.vehicle_counts analysis)) ImageUpload.directions /\
  map TrafficLight.green_active views =
    map (fun d => TrafficLight.same (get d (Api.signal_states analysis))
                                    (Some "green"))
        ImageUpload.directions.
Proof.
  unfold TrafficIntersection.TrafficIntersection.
  cbn [map].
  rewrite (light_of_direction analysis "NORTH" "north" eq_refl),
    (light_of_direction analysis "SOUTH" "south" eq_refl),
    (light_of_direction analysis "EAST" "east" eq_refl),
    (light_of_direction analysis "WEST" "west" eq_refl).
  destruct (get "north" (Api.traffic_density analysis)) as [dn|] eqn:Dn;
    [|discriminate].
  destruct (get "north" (Api.signal_states analysis)) as [sn|] eqn:Sn;
    [|discriminate].
  destruct (get "south" (Api.traffic_density analysis)) as [ds|] eqn:Ds;
    [|discriminate].
  destruct (get "south" (Api.signal_states analysis)) as [ss|] eqn:Ss;
    [|discriminate].
  destruct (get "east" (Api.traffic_density analysis)) as [de|] eqn:De;
    [|discriminate].
  destruct (get "east" (Api.signal_states analysis)) as [se|] eqn:Se;
    [|discriminate].
  destruct (get "west" (Api.traffic_density analysis)) as [dw|] eqn:Dw;
    [|discriminate].
  destruct (get "west" (Api.signal_states analysis)) as [sw|] eqn:Sw;
    [|discriminate].
  intros [= <-]. split; [|split; [|split]].
  - repeat constructor.
    + exists sn, dn. rewrite Sn, Dn. repeat split.
    + exists ss, ds. rewrite Ss, Ds. repeat split.
    + exists se, de. rewrite Se, De. repeat split.
    + exists sw, dw. rewrite Sw, Dw. repeat split.
  - reflexivity.
  - reflexivity.
  - simpl. rewrite Sn, Ss, Se, Sw. reflexivity.
Qed.

Lemma intersection_lights_are_wired_witness :
  exists views,
    TrafficIntersection.TrafficIntersection sample_body = TrafficLight.Ok views /\
    map TrafficLight.direction_title views = ["NORTH"; "SOUTH"; "EAST"; "WEST"] /\
    map TrafficLight.vehicle_count views = [Some 12; Some 5; Some 8; Some 3]%Z /\
    map TrafficLight.green_active views = [true; false; true; false].
Proof.
  eexists. split; [reflexivity|].
  exact (proj2 (intersection_lights_are_wired sample_body _ eq_refl)).
Defined.

(** X20. On an analysis whose signal states are keyed by the four directions,
    when the intersection view renders, the number of green signals shown
    in the summary is the number of lights whose green lamp is on. *)
Theorem green_count_matches_lights (analysis : Api.Data)
    (views : list TrafficLight.View) :
  Permutation (keys (Api.signal_states analysis)) ImageUpload.directions ->
  TrafficIntersection.TrafficIntersection analysis = TrafficLight.Ok views ->
  AnalysisResults.greenSignals analysis =
    length (filter TrafficLight.green_active views) /\
  App.header_green analysis =
    length (filter TrafficLight.green_active views).
Proof.
  intros HP.
  destruct (values_of_four_directions _ HP)
    as (a & b & c & d & Ha & Hb & Hc & Hd & Hperm).
  unfold TrafficIntersection.TrafficIntersection. cbn [map].
  rewrite (light_of_direction analysis "NORTH" "north" eq_refl),
    (light_of_direction analysis "SOUTH" "south" eq_refl),
    (light_of_direction analysis "EAST" "east" eq_refl),
    (light_of_direction analysis "WEST" "west" eq_refl).
  rewrite Ha, Hb, Hc, Hd.
  destruct (get "north" (Api.traffic_density analysis)); [|discriminate].
  destruct (get "south" (Api.traffic_density analysis)); [|discriminate].
  destruct (get "east" (Api.traffic_density analysis)); [|discriminate].
  destruct (get "west" (Api.traffic_density analysis)); [|discriminate].
  intros [= <-].
  unfold App.header_green, AnalysisResults.greenSignals.
  rewrite (count_permutation _ _ _ Hperm). simpl.
  destruct (a =? "green"), (b =? "green"), (c =? "green"), (d =? "green");
    split; reflexivity.
Qed.

Lemma green_count_matches_lights_witness :
  exists views,
    TrafficIntersection.TrafficIntersection sample_body = TrafficLight.Ok views /\
    AnalysisResults.greenSignals sample_body =
      length (filter TrafficLight.green_active views).
Proof.
  eexists. split; [reflexivity|].
  refine (proj1 (green_count_matches_lights sample_body _ _ eq_refl)).
  simpl. change ImageUpload.directions with (["north"; "south"; "east"] ++ ["west"]).
  apply (Permutation_cons_app ["north"; "south"; "east"] []).
  apply Permutation_refl.
Defined.

Lemma missing_direction_throws (analysis : Api.Data) (d : string) :
  In d ImageUpload.directions ->
  get d (Api.signal_states analysis) = None \/
  get d (Api.traffic_density analysis) = None ->
  TrafficIntersection.TrafficIntersection analysis = TrafficLight.TypeError.
Proof.
  intros Hd Hmiss. unfold TrafficIntersection.TrafficIntersection.
  apply all_rendered_TypeError. cbn [map].
  rewrite (light_of_direction analysis "NORTH" "north" eq_refl),
    (light_of_direction analysis "SOUTH" "south" eq_refl),
    (light_of_direction analysis "EAST" "east" eq_refl),
    (light_of_direction analysis "WEST" "west" eq_refl).
  simpl in Hd.
  destruct Hd as [<-|[<-|[<-|[<-|[]]]]]; destruct Hmiss as [-> | ->]; simpl;
    repeat match goal with
           | |- context [match ?x with Some _ => _ | None => _ end] =>
               destruct x
           end; tauto.
Qed.

(** X21. A response with a status in 200..299 whose body lacks the signal state
    or the density of one of the four directions is stored as the analysis
    with loading ended, and the intersection view, which the application
    renders for any stored analysis, then throws a [TypeError]. *)
Theorem partial_result_breaks_the_view (s : App.State) (r : Api.Response)
    (body : Api.Data) (d : string) :
  Api.is_2xx (Api.status r) = true ->
  Api.data r = Some body ->
  In d ImageUpload.directions ->
  get d (Api.signal_states body) = None \/
  get d (Api.traffic_density body) = None ->
  App.analysis (App.settled (Api.Answer r) s) = Some body /\
  App.loading (App.settled (Api.Answer r) s) = false /\
  App.error (App.settled (Api.Answer r) s) = App.error s /\
  TrafficIntersection.TrafficIntersection body = TrafficLight.TypeError.
Proof.
  intros H2 Hbody Hd Hmiss.
  unfold App.settled, Api.analyzeTraffic_result, Api.axios_post.
  rewrite H2. simpl. rewrite Hbody. repeat split.
  now apply (missing_direction_throws body d).
Qed.

Lemma partial_result_breaks_the_view_witness :
  App.analysis (App.settled
    (Api.Answer {| Api.status := 200; Api.data := Some body_without_west |})
    in_flight_state) = Some body_without_west /\
  App.loading (App.settled
    (Api.Answer {| Api.status := 200; Api.data := Some body_without_west |})
    in_flight_state) = false /\
  App.error (App.settled
    (Api.Answer {| Api.status := 200; Api.data := Some body_without_west |})
    in_flight_state) = None /\
  TrafficIntersection.TrafficIntersection body_without_west =
    TrafficLight.TypeError.
Proof.
  apply (partial_result_breaks_the_view in_flight_state
           {| Api.status := 200; Api.data := Some body_without_west |}
           body_without_west "west").
  - reflexivity.
  - reflexivity.
  - simpl. tauto.
  - left. reflexivity.
Defined.

Lemma get_None_iff {V} (o : obj V) k : get k o = None <-> ~ In k (keys o).
Proof.
  unfold keys. induction o as [|[k0 v0] o IH]; simpl; [tauto|].
  destruct (k0 =? k) eqn:E.
  - apply String.eqb_eq in E. split; [discriminate | tauto].
  - apply String.eqb_neq in E. rewrite IH. tauto.
Qed.

(** X22. The badge of the results card for an entry of [traffic_density], and
    the light of the intersection for the same density, on ASCII text that
    is not a name inherited from [Object.prototype].  A density of
    [DENSITY_LEVELS] gets its background and text colour in the badge and
    the same background on the light.  Any other density gets a badge
    without colours, while the light falls back to the colour of
    [very_low]. *)
Theorem density_outside_the_table (analysis : Api.Data)
    (direction density : string) :
  In (direction, density) (entries (Api.traffic_density analysis)) ->
  JsString.is_ascii direction = true -> JsString.is_ascii density = true ->
  inherited density = false ->
  (In density (values Constants.DENSITY_LEVELS) ->
   exists bg fg,
     In (JsString.toUpperCase direction, Some bg, Some fg,
         AnalysisResults.getDensityDisplay density)
        (AnalysisResults.density_items analysis) /\
     TrafficLight.getDensityColor (Some density) = Some bg) /\
  (~ In density (values Constants.DENSITY_LEVELS) ->
   In (JsString.toUpperCase direction, None, None,
       AnalysisResults.getDensityDisplay density)
      (AnalysisResults.density_items analysis) /\
   TrafficLight.getDensityColor (Some density) = Some "#d4edda").
Proof.
  intros Hin _ _ _.
  assert (Hitem :
    In (JsString.toUpperCase direction,
        get density Constants.DENSITY_COLORS,
        get density Constants.DENSITY_TEXT_COLORS,
        AnalysisResults.getDensityDisplay density)
       (AnalysisResults.density_items analysis)).
  { unfold AnalysisResults.density_items.
    apply in_map_iff. exists (direction, density). split; [reflexivity|exact Hin]. }
  split.
  - intros Hk. simpl in Hk.
    destruct Hk as [<-|[<-|[<-|[<-|[<-|[]]]]]];
      eexists; eexists; (split; [exact Hitem | reflexivity]).
  - intros Hk.
    assert (Hc : get density Constants.DENSITY_COLORS = None)
      by (apply get_None_iff; exact Hk).
    assert (Ht : get density Constants.DENSITY_TEXT_COLORS = None)
      by (apply get_None_iff; exact Hk).
    rewrite Hc, Ht in Hitem. split; [exact Hitem|].
    unfold TrafficLight.getDensityColor. simpl to_key. now rewrite Hc.
Qed.

Lemma density_outside_the_table_witness :
  In ("EAST", None, None, "GRID LOCK")
     (AnalysisResults.density_items
        {| Api.error := None; Api.vehicle_counts := [];
           Api.traffic_density := [("north", "high"); ("east", "grid_lock")];
           Api.signal_states := []; Api.recommendations := [];
           Api.analysis_timestamp := ""; Api.processing_time_ms := 0 |}) /\
  TrafficLight.getDensityColor (Some "grid_lock") = Some "#d4edda".
Proof.
  apply (density_outside_the_table
           {| Api.error := None; Api.vehicle_counts := [];
              Api.traffic_density := [("north", "high"); ("east", "grid_lock")];
              Api.signal_states := []; Api.recommendations := [];
              Api.analysis_timestamp := ""; Api.processing_time_ms := 0 |}
           "east" "grid_lock").
  - simpl. tauto.
  - reflexivity.
  - reflexivity.
  - reflexivity.
  - simpl. intuition discriminate.
Defined.

(** X23. The letter shown on a light is the first letter of the label, so it is
    the same, V, for [very_low] and [very_high]; the background colour
    tells every two levels of [DENSITY_LEVELS] apart. *)
Theorem letter_is_ambiguous_colour_is_not :
  map (fun level => JsString.charAt0 (TrafficLight.getDensityText level))
      (values Constants.DENSITY_LEVELS) = ["V"; "L"; "M"; "H"; "V"] /\
  NoDup (map (fun level => TrafficLight.getDensityColor (Some level))
             (values Constants.DENSITY_LEVELS)) /\
  forall direction state count l1 l2 v1 v2,
    In l1 (values Constants.DENSITY_LEVELS) ->
    In l2 (values Constants.DENSITY_LEVELS) ->
    TrafficLight.TrafficLight direction state count (Some l1) =
      TrafficLight.Ok v1 ->
    TrafficLight.TrafficLight direction state count (Some l2) =
      TrafficLight.Ok v2 ->
    TrafficLight.backgroundColor v1 = TrafficLight.backgroundColor v2 ->
    l1 = l2.
Proof.
  split; [reflexivity|]. split.
  - simpl. repeat constructor; simpl; intuition discriminate.
  - intros direction state count l1 l2 v1 v2 H1 H2.
    unfold TrafficLight.TrafficLight.
    destruct direction; [|discriminate]. destruct state; [|discriminate].
    intros [= <-] [= <-]. simpl in H1, H2 |- *.
    destruct H1 as [<-|[<-|[<-|[<-|[<-|[]]]]]];
      destruct H2 as [<-|[<-|[<-|[<-|[<-|[]]]]]];
      intros Hc; try reflexivity; discriminate Hc.
Qed.
